(** * MCP Git test client: framing codec, command client and test harness

    A shallow embedding of [client.py].  The client sends one JSON request
    over a fresh TCP connection, framed by a 4-byte big-endian length, reads
    one framed JSON response, and closes the socket.  The tester runs a fixed
    list of scripted calls and counts how many passed.

    Python values are an inductive type, [str] is a list of code points,
    [bytes] is a list of [byte], Python's unbounded [int] is [Z].  Exceptions
    are a sum type threaded through a state monad over the socket.  The
    [json] and [socket] modules are embedded as far as the client uses them. *)

From Stdlib Require Import List ZArith NArith Lia Bool String Ascii.
From Stdlib Require Import Strings.Byte.
From Stdlib Require Import Decimal DecimalN DecimalPos.
Import ListNotations.

Set Implicit Arguments.
Set Warnings "-register-all".

(** ** Exceptions and results *)

(** The exception classes the program can meet.  All of them derive from
    [Exception]; [KeyboardInterrupt] and [SystemExit] derive from
    [BaseException] only, are signals rather than errors of the program, and
    are not part of this type. *)
Inductive exn : Type :=
| ConnectionRefusedError
| ConnectionResetError
| BrokenPipeError
| OSError
| OverflowError
| TypeError
| AttributeError
| KeyError
| ValueError
| UnicodeEncodeError
| UnicodeDecodeError
| JSONDecodeError
| RecursionError
| UserError (cls : string).

Inductive result (A : Type) : Type :=
| Return (a : A)
| Raise (e : exn).

Arguments Return {A} a.
Arguments Raise {A} e.

Definition is_return {A} (r : result A) : bool :=
  match r with Return _ => true | Raise _ => false end.

Definition is_raise {A} (r : result A) : bool := negb (is_return r).

Definition rbind {A B} (r : result A) (k : A -> result B) : result B :=
  match r with
  | Return a => k a
  | Raise e => Raise e
  end.

Declare Scope result_scope.
Delimit Scope result_scope with result.
Notation "'let?' x ':=' r 'in' k" :=
  (rbind r (fun x => k))
  (at level 10, x pattern, r at level 100, k at level 200)
  : result_scope.
Local Open Scope result_scope.

(** ** Python values *)

(** A Python [str]: a sequence of Unicode code points. *)
Definition pystr : Type := list N.

Fixpoint str_of (s : string) : pystr :=
  match s with
  | EmptyString => []
  | String a s' => N_of_ascii a :: str_of s'
  end.

Definition chr (a : ascii) : N := N_of_ascii a.

(** The values a request or a response is built of.  A [dict] keeps its
    insertion order, which [json.dumps] follows; its keys are [str], as the
    client's annotations say.  A [float] is carried as the decimal text that
    denotes it: floating-point rounding is outside the embedding, and no
    result below compares two floats.  [PyObject] stands for any object
    [json] cannot serialise. *)
Inductive pyval : Type :=
| PyNone
| PyBool (b : bool)
| PyInt (z : Z)
| PyFloat (lit : pystr)
| PyStr (s : pystr)
| PyList (xs : list pyval)
| PyTuple (xs : list pyval)
| PyDict (kvs : list (pystr * pyval))
| PyObject (cls : string).

Definition pydict : Type := list (pystr * pyval).

Definition pystr_eqb (a b : pystr) : bool :=
  if list_eq_dec N.eq_dec a b then true else false.

(** [d.get(k)]: the value at [k], or [None] when absent. *)
Fixpoint dict_find (k : pystr) (d : pydict) : option pyval :=
  match d with
  | [] => None
  | (k', v) :: d' => if pystr_eqb k k' then Some v else dict_find k d'
  end.

Definition dict_contains (k : pystr) (d : pydict) : bool :=
  match dict_find k d with Some _ => true | None => false end.

(** [d[k] = v]: replace in place when the key exists, else append. *)
Fixpoint dict_set (k : pystr) (v : pyval) (d : pydict) : pydict :=
  match d with
  | [] => [(k, v)]
  | (k', v') :: d' =>
      if pystr_eqb k k' then (k', v) :: d' else (k', v') :: dict_set k v d'
  end.

(** [dict(pairs)] *)
Definition dict_of_pairs (pairs : list (pystr * pyval)) : pydict :=
  fold_left (fun d kv => dict_set (fst kv) (snd kv) d) pairs [].

(** Python's [==] on these values.  [bool] is an [int] subtype, so
    [True == 1]; a list never equals a tuple; dicts compare without regard
    to order. *)
Fixpoint py_eq (a b : pyval) {struct a} : bool :=
  let fix seq_eq (xs ys : list pyval) {struct xs} : bool :=
    match xs, ys with
    | [], [] => true
    | x :: xs', y :: ys' => py_eq x y && seq_eq xs' ys'
    | _, _ => false
    end in
  let fix dict_sub (xs : pydict) (d : pydict) {struct xs} : bool :=
    match xs with
    | [] => true
    | (k, v) :: xs' =>
        match dict_find k d with
        | Some w => py_eq v w && dict_sub xs' d
        | None => false
        end
    end in
  match a, b with
  | PyNone, PyNone => true
  | PyBool x, PyBool y => Bool.eqb x y
  | PyBool x, PyInt y => Z.eqb (if x then 1 else 0) y
  | PyInt x, PyBool y => Z.eqb x (if y then 1 else 0)
  | PyInt x, PyInt y => Z.eqb x y
  | PyFloat x, PyFloat y => pystr_eqb x y
  | PyStr x, PyStr y => pystr_eqb x y
  | PyList xs, PyList ys => seq_eq xs ys
  | PyTuple xs, PyTuple ys => seq_eq xs ys
  | PyDict xs, PyDict ys =>
      Nat.eqb (List.length xs) (List.length ys) && dict_sub xs ys
  | PyObject x, PyObject y => String.eqb x y
  | _, _ => false
  end.

(** ** The [json] module, as the client uses it

    [json.dumps] with its default arguments ([ensure_ascii=True], separators
    [", "] and [": "]) and [json.loads] with the default decoder.  Limits of
    the interpreter (recursion depth, memory, the digit limit of [int]) are
    not modelled.

    Characters are written by their code points: 34 is the double quote, 92
    the backslash, 47 the slash, 44 the comma, 58 the colon, 32 the space,
    91 and 93 the square brackets, 123 and 125 the braces, 45 the minus
    sign, 43 the plus sign, 46 the dot, 48 to 57 the digits, 101 and 69 the
    letter e, 117 the letter u that starts a four-digit escape. *)

Module Json.

Local Open Scope N_scope.

(** *** Encoding *)

Definition hex_digit (n : N) : N := if n <? 10 then 48 + n else 87 + n.

(** ['{0:04x}'.format(n)] for [n < 0x10000]. *)
Definition hex4 (n : N) : pystr :=
  [hex_digit (n / 4096 mod 16); hex_digit (n / 256 mod 16);
   hex_digit (n / 16 mod 16); hex_digit (n mod 16)].

(** [\uXXXX] *)
Definition u_escape (n : N) : pystr := 92 :: 117 :: hex4 n.

(** One character of [py_encode_basestring_ascii]: the short escapes, then
    printable ASCII as it is, then [\uXXXX], with a surrogate pair above the
    basic plane. *)
Definition escape_char (c : N) : pystr :=
  if c =? 34 then [92; 34]
  else if c =? 92 then [92; 92]
  else if c =? 10 then [92; 110]
  else if c =? 13 then [92; 114]
  else if c =? 9 then [92; 116]
  else if c =? 12 then [92; 102]
  else if c =? 8 then [92; 98]
  else if (32 <=? c) && (c <=? 126) then [c]
  else if c <? 65536 then u_escape c
  else
    let v := c - 65536 in
    u_escape (N.lor 55296 (N.land (N.shiftr v 10) 1023))
      ++ u_escape (N.lor 56320 (N.land v 1023)).

Definition encode_basestring_ascii (s : pystr) : pystr :=
  34 :: flat_map escape_char s ++ [34].

Fixpoint uint_chars (d : Decimal.uint) : pystr :=
  match d with
  | Nil => []
  | D0 d => 48 :: uint_chars d
  | D1 d => 49 :: uint_chars d
  | D2 d => 50 :: uint_chars d
  | D3 d => 51 :: uint_chars d
  | D4 d => 52 :: uint_chars d
  | D5 d => 53 :: uint_chars d
  | D6 d => 54 :: uint_chars d
  | D7 d => 55 :: uint_chars d
  | D8 d => 56 :: uint_chars d
  | D9 d => 57 :: uint_chars d
  end.

(** [int.__repr__] *)
Definition repr_int (z : Z) : pystr :=
  match z with
  | Zneg p => 45 :: uint_chars (N.to_uint (Npos p))
  | _ => uint_chars (N.to_uint (Z.to_N z))
  end.

(** [sep.join(items)] *)
Fixpoint join (sep : pystr) (items : list pystr) : pystr :=
  match items with
  | [] => []
  | [x] => x
  | x :: rest => x ++ sep ++ join sep rest
  end.

Definition item_separator : pystr := [44; 32].
Definition key_separator : pystr := [58; 32].

Section MapM.
Context {A B : Type} (f : A -> result B).

(** [f] on every element, in order, stopping at the first that raises. *)
Fixpoint mapM (xs : list A) : result (list B) :=
  match xs with
  | [] => Return []
  | x :: xs' =>
      let? y := f x in
      let? ys := mapM xs' in
      Return (y :: ys)
  end.
End MapM.

Fixpoint dumps (v : pyval) : result pystr :=
  match v with
  | PyNone => Return (str_of "null")
  | PyBool true => Return (str_of "true")
  | PyBool false => Return (str_of "false")
  | PyInt z => Return (repr_int z)
  | PyFloat lit => Return lit
  | PyStr s => Return (encode_basestring_ascii s)
  | PyList xs | PyTuple xs =>
      let? ts := mapM dumps xs in
      Return (91 :: join item_separator ts ++ [93])
  | PyDict kvs =>
      let? ts :=
        mapM (fun kv : pystr * pyval =>
                let (k, x) := kv in
                let? t := dumps x in
                Return (encode_basestring_ascii k ++ key_separator ++ t))
             kvs in
      Return (123 :: join item_separator ts ++ [125])
  | PyObject _ => Raise TypeError
  end.

(** *** Decoding *)

Definition is_ws (c : N) : bool :=
  (c =? 32) || (c =? 9) || (c =? 10) || (c =? 13).

Fixpoint skip_ws (s : pystr) : pystr :=
  match s with
  | c :: r => if is_ws c then skip_ws r else s
  | [] => []
  end.

Definition is_digit (c : N) : bool := (48 <=? c) && (c <=? 57).

Definition hex_val (c : N) : option N :=
  if is_digit c then Some (c - 48)
  else if (97 <=? c) && (c <=? 102) then Some (c - 87)
  else if (65 <=? c) && (c <=? 70) then Some (c - 55)
  else None.

Definition hex4_val (a b c d : N) : option N :=
  match hex_val a, hex_val b, hex_val c, hex_val d with
  | Some x, Some y, Some z, Some w => Some (((x * 16 + y) * 16 + z) * 16 + w)
  | _, _, _, _ => None
  end.

Definition is_high_surrogate (u : N) : bool := (55296 <=? u) && (u <=? 56319).
Definition is_low_surrogate (u : N) : bool := (56320 <=? u) && (u <=? 57343).

Definition join_surrogates (hi lo : N) : N :=
  65536 + N.lor (N.shiftl (N.land hi 1023) 10) (N.land lo 1023).

Definition short_escape (e : N) : option N :=
  if e =? 34 then Some 34
  else if e =? 92 then Some 92
  else if e =? 47 then Some 47
  else if e =? 98 then Some 8
  else if e =? 102 then Some 12
  else if e =? 110 then Some 10
  else if e =? 114 then Some 13
  else if e =? 116 then Some 9
  else None.

Definition prepend (c : N) (r : result (pystr * pystr)) : result (pystr * pystr) :=
  let? (str, rest) := r in Return (c :: str, rest).

(** [scanstring] in strict mode, from just after the opening quote: the
    decoded text and the input after the closing quote. *)
Fixpoint scanstring (s : pystr) : result (pystr * pystr) :=
  match s with
  | [] => Raise JSONDecodeError
  | c :: rest =>
      if c =? 34 then Return ([], rest)
      else if c =? 92 then
        match rest with
        | [] => Raise JSONDecodeError
        | e :: rest2 =>
            if e =? 117 then
              match rest2 with
              | h1 :: h2 :: h3 :: h4 :: rest3 =>
                  match hex4_val h1 h2 h3 h4 with
                  | None => Raise JSONDecodeError
                  | Some u =>
                      match rest3 with
                      | b :: u' :: l1 :: l2 :: l3 :: l4 :: rest4 =>
                          if is_high_surrogate u && (b =? 92) && (u' =? 117)
                          then
                            match hex4_val l1 l2 l3 l4 with
                            | None => Raise JSONDecodeError
                            | Some u2 =>
                                if is_low_surrogate u2
                                then prepend (join_surrogates u u2)
                                             (scanstring rest4)
                                else prepend u (scanstring rest3)
                            end
                          else prepend u (scanstring rest3)
                      | _ => prepend u (scanstring rest3)
                      end
                  end
              | _ => Raise JSONDecodeError
              end
            else
              match short_escape e with
              | Some x => prepend x (scanstring rest2)
              | None => Raise JSONDecodeError
              end
        end
      else if c <? 32 then Raise JSONDecodeError
      else prepend c (scanstring rest)
  end.

Fixpoint span_digits (s : pystr) : pystr * pystr :=
  match s with
  | c :: r =>
      if is_digit c then let (d, r') := span_digits r in (c :: d, r')
      else ([], s)
  | [] => ([], [])
  end.

(** The integer part of [NUMBER_RE]: an optional minus sign, then a lone
    zero or a non-zero digit followed by digits. *)
Definition match_int (s : pystr) : option (pystr * pystr) :=
  let (sign, s1) :=
    match s with
    | c :: r => if c =? 45 then ([45], r) else ([], s)
    | [] => ([], s)
    end in
  match s1 with
  | c :: r =>
      if c =? 48 then Some (sign ++ [48], r)
      else if is_digit c
      then let (d, r') := span_digits r in Some (sign ++ c :: d, r')
      else None
  | [] => None
  end.

(** The optional fraction: a dot and at least one digit. *)
Definition match_frac (s : pystr) : pystr * pystr :=
  match s with
  | c :: r =>
      if c =? 46 then
        match span_digits r with
        | ([], _) => ([], s)
        | (d, r') => (c :: d, r')
        end
      else ([], s)
  | [] => ([], s)
  end.

(** The optional exponent: e or E, an optional sign, at least one digit. *)
Definition match_exp (s : pystr) : pystr * pystr :=
  match s with
  | c :: r =>
      if (c =? 101) || (c =? 69) then
        let (sg, r1) :=
          match r with
          | x :: r' => if (x =? 43) || (x =? 45) then ([x], r') else ([], r)
          | [] => ([], r)
          end in
        match span_digits r1 with
        | ([], _) => ([], s)
        | (d, r2) => (c :: sg ++ d, r2)
        end
      else ([], s)
  | [] => ([], s)
  end.

Definition digits_val (ds : pystr) : N :=
  fold_left (fun acc c => 10 * acc + (c - 48)) ds 0.

(** [int(text)] on the text [match_int] accepts. *)
Definition int_of_text (t : pystr) : Z :=
  match t with
  | c :: r => if c =? 45 then (- Z.of_N (digits_val r))%Z else Z.of_N (digits_val t)
  | [] => 0%Z
  end.

Fixpoint strip_prefix (p s : pystr) : option pystr :=
  match p, s with
  | [], _ => Some s
  | a :: p', b :: s' => if a =? b then strip_prefix p' s' else None
  | _ :: _, [] => None
  end.

(** The scalar cases of [scan_once]: the three constants, a number, and the
    non-finite floats the decoder accepts. *)
Definition scan_scalar (s : pystr) : result (pyval * pystr) :=
  match strip_prefix (str_of "null") s with
  | Some r => Return (PyNone, r)
  | None =>
  match strip_prefix (str_of "true") s with
  | Some r => Return (PyBool true, r)
  | None =>
  match strip_prefix (str_of "false") s with
  | Some r => Return (PyBool false, r)
  | None =>
  match match_int s with
  | Some (i, r) =>
      let (frac, r1) := match_frac r in
      let (exp, r2) := match_exp r1 in
      match frac ++ exp with
      | [] => Return (PyInt (int_of_text i), r2)
      | _ => Return (PyFloat (i ++ frac ++ exp), r2)
      end
  | None =>
  match strip_prefix (str_of "NaN") s with
  | Some r => Return (PyFloat (str_of "NaN"), r)
  | None =>
  match strip_prefix (str_of "Infinity") s with
  | Some r => Return (PyFloat (str_of "Infinity"), r)
  | None =>
  match strip_prefix (str_of "-Infinity") s with
  | Some r => Return (PyFloat (str_of "-Infinity"), r)
  | None => Raise JSONDecodeError
  end end end end end end end.

(** [scan_once], [JSONArray] and [JSONObject].  The three call one another
    on the rest of the input; [fuel] bounds the number of nested calls. *)
Fixpoint scan_once (fuel : nat) (s : pystr) {struct fuel}
  : result (pyval * pystr) :=
  match fuel with
  | O => Raise RecursionError
  | S fuel' =>
      match s with
      | [] => Raise JSONDecodeError
      | c :: rest =>
          if c =? 34 then
            let? (str, r) := scanstring rest in Return (PyStr str, r)
          else if c =? 123 then
            match skip_ws rest with
            | c1 :: r1 =>
                if c1 =? 125 then Return (PyDict [], r1)
                else if c1 =? 34 then
                  let? (pairs, r) := object_pairs fuel' r1 in
                  Return (PyDict (dict_of_pairs pairs), r)
                else Raise JSONDecodeError
            | [] => Raise JSONDecodeError
            end
          else if c =? 91 then
            match skip_ws rest with
            | c1 :: r1 =>
                if c1 =? 93 then Return (PyList [], r1)
                else
                  let? (items, r) := array_items fuel' (c1 :: r1) in
                  Return (PyList items, r)
            | [] => Raise JSONDecodeError
            end
          else scan_scalar s
      end
  end

with array_items (fuel : nat) (s : pystr) {struct fuel}
  : result (list pyval * pystr) :=
  match fuel with
  | O => Raise RecursionError
  | S fuel' =>
      let? (v, r) := scan_once fuel' s in
      match skip_ws r with
      | c :: r1 =>
          if c =? 93 then Return ([v], r1)
          else if c =? 44 then
            let? (vs, r2) := array_items fuel' (skip_ws r1) in
            Return (v :: vs, r2)
          else Raise JSONDecodeError
      | [] => Raise JSONDecodeError
      end
  end

with object_pairs (fuel : nat) (s : pystr) {struct fuel}
  : result (list (pystr * pyval) * pystr) :=
  match fuel with
  | O => Raise RecursionError
  | S fuel' =>
      let? (key, r) := scanstring s in
      match skip_ws r with
      | c :: r1 =>
          if c =? 58 then
            let? (v, r2) := scan_once fuel' (skip_ws r1) in
            match skip_ws r2 with
            | c2 :: r3 =>
                if c2 =? 125 then Return ([(key, v)], r3)
                else if c2 =? 44 then
                  match skip_ws r3 with
                  | q :: r4 =>
                      if q =? 34 then
                        let? (ps, r5) := object_pairs fuel' r4 in
                        Return ((key, v) :: ps, r5)
                      else Raise JSONDecodeError
                  | [] => Raise JSONDecodeError
                  end
                else Raise JSONDecodeError
            | [] => Raise JSONDecodeError
            end
          else Raise JSONDecodeError
      | [] => Raise JSONDecodeError
      end
  end.

(** [json.loads(s)] for a [str]: one value, with white space allowed
    around it and nothing else after it. *)
Definition loads (s : pystr) : result pyval :=
  let? (v, r) := scan_once (2 * List.length s + 2) (skip_ws s) in
  match skip_ws r with
  | [] => Return v
  | _ :: _ => Raise JSONDecodeError
  end.

End Json.

(** ** [bytes]: UTF-8 and fixed-width integers *)

Module Bytes.

Local Open Scope N_scope.

Definition byte_of (n : N) : byte :=
  match Byte.of_N n with
  | Some b => b
  | None => x00
  end.

Definition is_surrogate (c : N) : bool := (55296 <=? c) && (c <=? 57343).

Definition encode_char (c : N) : result (list byte) :=
  if c <? 128 then Return [byte_of c]
  else if c <? 2048 then
    Return [byte_of (192 + c / 64); byte_of (128 + c mod 64)]
  else if c <? 65536 then
    if is_surrogate c then Raise UnicodeEncodeError
    else Return [byte_of (224 + c / 4096); byte_of (128 + c / 64 mod 64);
                 byte_of (128 + c mod 64)]
  else if c <? 1114112 then
    Return [byte_of (240 + c / 262144); byte_of (128 + c / 4096 mod 64);
            byte_of (128 + c / 64 mod 64); byte_of (128 + c mod 64)]
  else Raise ValueError.

(** [s.encode('utf-8')] *)
Fixpoint encode (s : pystr) : result (list byte) :=
  match s with
  | [] => Return []
  | c :: s' =>
      let? bs := encode_char c in
      let? rest := encode s' in
      Return (bs ++ rest)
  end.

Definition is_cont (n : N) : bool := (128 <=? n) && (n <? 192).

Definition push (c : N) (r : result pystr) : result pystr :=
  let? s := r in Return (c :: s).

(** [b.decode('utf-8')], strict: overlong forms, surrogates and values
    above U+10FFFF are rejected. *)
Fixpoint decode (bs : list byte) : result pystr :=
  match bs with
  | [] => Return []
  | b0 :: r0 =>
      let n0 := Byte.to_N b0 in
      if n0 <? 128 then push n0 (decode r0)
      else if n0 <? 194 then Raise UnicodeDecodeError
      else if n0 <? 224 then
        match r0 with
        | b1 :: r1 =>
            let n1 := Byte.to_N b1 in
            if is_cont n1
            then push ((n0 - 192) * 64 + (n1 - 128)) (decode r1)
            else Raise UnicodeDecodeError
        | _ => Raise UnicodeDecodeError
        end
      else if n0 <? 240 then
        match r0 with
        | b1 :: b2 :: r2 =>
            let n1 := Byte.to_N b1 in
            let n2 := Byte.to_N b2 in
            let c := (n0 - 224) * 4096 + (n1 - 128) * 64 + (n2 - 128) in
            if is_cont n1 && is_cont n2 && (2048 <=? c) && negb (is_surrogate c)
            then push c (decode r2)
            else Raise UnicodeDecodeError
        | _ => Raise UnicodeDecodeError
        end
      else if n0 <? 245 then
        match r0 with
        | b1 :: b2 :: b3 :: r3 =>
            let n1 := Byte.to_N b1 in
            let n2 := Byte.to_N b2 in
            let n3 := Byte.to_N b3 in
            let c := (n0 - 240) * 262144 + (n1 - 128) * 4096
                     + (n2 - 128) * 64 + (n3 - 128) in
            if is_cont n1 && is_cont n2 && is_cont n3
               && (65536 <=? c) && (c <? 1114112)
            then push c (decode r3)
            else Raise UnicodeDecodeError
        | _ => Raise UnicodeDecodeError
        end
      else Raise UnicodeDecodeError
  end.

Local Open Scope Z_scope.

(** [len(b)] *)
Definition len (bs : list byte) : Z := Z.of_nat (List.length bs).

(** [int.from_bytes(b, byteorder='big')]: any length, the empty
    [bytes] gives 0. *)
Definition int_from_bytes (bs : list byte) : Z :=
  fold_left (fun acc b => acc * 256 + Z.of_N (Byte.to_N b)) bs 0.

(** [n.to_bytes(4, byteorder='big')]: [OverflowError] unless
    [0 <= n < 2^32]. *)
Definition int_to_bytes4 (n : Z) : result (list byte) :=
  if (0 <=? n) && (n <? 4294967296) then
    Return [byte_of (Z.to_N (n / 16777216));
            byte_of (Z.to_N (n / 65536 mod 256));
            byte_of (Z.to_N (n / 256 mod 256));
            byte_of (Z.to_N (n mod 256))]
  else Raise OverflowError.

End Bytes.

(** ** A TCP socket

    What the remote end does on one connection is a [peer]: whether it
    accepts, whether the write succeeds, and what arrives, in the pieces in
    which [recv] will see it.  After the last piece the stream is at end of
    file. *)

Module Socket.

Inductive event : Type :=
| Data (bs : list byte)
| Fault (e : exn).

Record peer : Type := {
  refuses : option exn;
  send_fault : option exn;
  arrivals : list event
}.

Inductive call : Type :=
| Connect
| Sendall (bs : list byte)
| Recv (bufsize : Z)
| Close.

Record socket : Type := {
  remote : peer;
  inbox : list event;
  sent : list byte;
  closed : bool;
  calls : list call
}.

(** Code that uses a socket: it may change the socket and may raise. *)
Definition M (A : Type) : Type := socket -> result A * socket.

Definition ret {A} (a : A) : M A := fun s => (Return a, s).

Definition bind {A B} (m : M A) (k : A -> M B) : M B :=
  fun s =>
    match m s with
    | (Return a, s') => k a s'
    | (Raise e, s') => (Raise e, s')
    end.

Definition lift {A} (r : result A) : M A := fun s => (r, s).

(** [try: body finally: cleanup] *)
Definition try_finally {A} (body : M A) (cleanup : M unit) : M A :=
  fun s =>
    let (r, s1) := body s in
    match cleanup s1 with
    | (Return _, s2) => (r, s2)
    | (Raise e, s2) => (Raise e, s2)
    end.

Definition logged (c : call) (s : socket) : socket :=
  {| remote := remote s; inbox := inbox s; sent := sent s;
     closed := closed s; calls := calls s ++ [c] |}.

(** [socket.socket(AF_INET, SOCK_STREAM)] *)
Definition create (p : peer) : socket :=
  {| remote := p; inbox := []; sent := []; closed := false; calls := [] |}.

(** [client.connect((host, port))] *)
Definition connect : M unit :=
  fun s =>
    let s := logged Connect s in
    if closed s then (Raise OSError, s)
    else
      match refuses (remote s) with
      | Some e => (Raise e, s)
      | None =>
          (Return tt,
           {| remote := remote s; inbox := arrivals (remote s); sent := sent s;
              closed := closed s; calls := calls s |})
      end.

(** [client.sendall(data)] *)
Definition sendall (data : list byte) : M unit :=
  fun s =>
    let s := logged (Sendall data) s in
    if closed s then (Raise OSError, s)
    else
      match send_fault (remote s) with
      | Some e => (Raise e, s)
      | None =>
          (Return tt,
           {| remote := remote s; inbox := inbox s; sent := sent s ++ data;
              closed := closed s; calls := calls s |})
      end.

(** What one [recv(n)] takes from the pending arrivals: at most [n] bytes
    of the first piece that is not empty, nothing at end of file. *)
Fixpoint take (n : nat) (evs : list event) : result (list byte) * list event :=
  match evs with
  | [] => (Return [], [])
  | Fault e :: rest => (Raise e, rest)
  | Data [] :: rest => take n rest
  | Data bs :: rest => (Return (firstn n bs), Data (skipn n bs) :: rest)
  end.

(** [client.recv(bufsize)] *)
Definition recv (bufsize : Z) : M (list byte) :=
  fun s =>
    let s := logged (Recv bufsize) s in
    if closed s then (Raise OSError, s)
    else
      let (r, evs) := take (Z.to_nat bufsize) (inbox s) in
      (r, {| remote := remote s; inbox := evs; sent := sent s;
             closed := closed s; calls := calls s |}).

(** [client.close()] *)
Definition close : M unit :=
  fun s =>
    let s := logged Close s in
    (Return tt,
     {| remote := remote s; inbox := inbox s; sent := sent s;
        closed := true; calls := calls s |}).

(** The number of bytes still to arrive. *)
Fixpoint pending (evs : list event) : nat :=
  match evs with
  | [] => 0
  | Data bs :: rest => List.length bs + pending rest
  | Fault _ :: rest => pending rest
  end.

End Socket.

Declare Scope sock_scope.
Delimit Scope sock_scope with sock.
Notation "x <- m ;; k" := (Socket.bind m (fun x => k))
  (at level 61, m at next level, right associativity) : sock_scope.
Notation "m ;;; k" := (Socket.bind m (fun _ => k))
  (at level 61, right associativity) : sock_scope.

(** ** [MCPGitClient] *)

Module Client.

Import Socket.
Local Open Scope sock_scope.
Local Open Scope Z_scope.

Record MCPGitClient : Type := {
  host : pystr;
  port : Z
}.

(** The request of [send_command]: a dict with the two keys [command] and
    [params]. *)
Definition make_request (command : pystr) (params : pydict) : pyval :=
  PyDict [(str_of "command", PyStr command); (str_of "params", PyDict params)].

(** Serialise and frame: [json.dumps(request).encode('utf-8')] behind its
    length as 4 big-endian bytes. *)
Definition encode_message (request : pyval) : result (list byte) :=
  let? text := Json.dumps request in
  let? request_json := Bytes.encode text in
  let? length := Bytes.int_to_bytes4 (Bytes.len request_json) in
  Return (length ++ request_json).

(** Receive response length: one [recv(4)], then [int.from_bytes]. *)
Definition recv_length : M Z :=
  response_len_bytes <- recv 4 ;;
  ret (Bytes.int_from_bytes response_len_bytes).

(** The [while] loop that receives the response data.  Every turn that
    does not leave the loop takes at least one byte from the stream, so
    [fuel] above the number of pending bytes is never used up. *)
Fixpoint recv_loop (fuel : nat) (response_len : Z) (response_data : list byte)
  : M (list byte) :=
  fun s =>
    if Bytes.len response_data <? response_len then
      match fuel with
      | O => (Return response_data, s)
      | S fuel' =>
          match recv (Z.min 4096 (response_len - Bytes.len response_data)) s with
          | (Return [], s') => (Return response_data, s')
          | (Return chunk, s') =>
              recv_loop fuel' response_len (response_data ++ chunk) s'
          | (Raise e, s') => (Raise e, s')
          end
      end
    else (Return response_data, s).

Definition recv_data (response_len : Z) : M (list byte) :=
  fun s => recv_loop (S (pending (inbox s))) response_len [] s.

(** [json.loads(response_data.decode('utf-8'))] *)
Definition parse_response (response_data : list byte) : result pyval :=
  let? text := Bytes.decode response_data in
  Json.loads text.

(** The receiving half of [send_command]. *)
Definition receive_response : M pyval :=
  response_len <- recv_length ;;
  response_data <- recv_data response_len ;;
  lift (parse_response response_data).

(** The body of the [try] block. *)
Definition exchange (request : pyval) : M pyval :=
  connect ;;;
  message <- lift (encode_message request) ;;
  sendall message ;;;
  receive_response.

(** [send_command(command, params)] against the peer that answers this
    connection: the result, and the socket as the call leaves it. *)
Definition send_command (p : peer) (command : pystr) (params : option pydict)
  : result pyval * socket :=
  let params := match params with None => [] | Some d => d end in
  let request := make_request command params in
  let client := create p in
  try_finally (exchange request) close client.

End Client.

(** ** Operations on values that the tester and its validators use *)

Module Ops.

(** [obj.get(key, default)]: only a dict has the method. *)
Definition get (obj : pyval) (key : pystr) (default : pyval) : result pyval :=
  match obj with
  | PyDict d =>
      match dict_find key d with
      | Some v => Return v
      | None => Return default
      end
  | _ => Raise AttributeError
  end.

(** [obj[key]] for a [str] key. *)
Definition getitem (obj : pyval) (key : pystr) : result pyval :=
  match obj with
  | PyDict d =>
      match dict_find key d with
      | Some v => Return v
      | None => Raise KeyError
      end
  | _ => Raise TypeError
  end.

Fixpoint is_prefix (p s : pystr) : bool :=
  match p, s with
  | [], _ => true
  | a :: p', b :: s' => N.eqb a b && is_prefix p' s'
  | _ :: _, [] => false
  end.

Fixpoint is_infix (p s : pystr) : bool :=
  is_prefix p s ||
  match s with
  | [] => false
  | _ :: s' => is_infix p s'
  end.

(** [key in obj] for a [str] key: a key of a dict, an element of a list or
    tuple, a substring of a [str]; other values are not iterable. *)
Definition contains (obj : pyval) (key : pystr) : result bool :=
  match obj with
  | PyDict d => Return (dict_contains key d)
  | PyList xs | PyTuple xs => Return (existsb (py_eq (PyStr key)) xs)
  | PyStr s => Return (is_infix key s)
  | _ => Raise TypeError
  end.

(** [len(obj)] *)
Definition len (obj : pyval) : result Z :=
  match obj with
  | PyStr s => Return (Z.of_nat (List.length s))
  | PyList xs | PyTuple xs => Return (Z.of_nat (List.length xs))
  | PyDict d => Return (Z.of_nat (List.length d))
  | _ => Raise TypeError
  end.

(** [isinstance(obj, list)] *)
Definition is_list (obj : pyval) : bool :=
  match obj with
  | PyList _ => true
  | _ => false
  end.

End Ops.

(** ** [MCPGitTester] *)

Module Tester.

Import Socket Client.
Local Open Scope Z_scope.

(** The arguments of one [run_test] call. *)
Record TestCase : Type := {
  name : string;
  command : pystr;
  params : option pydict;
  expected_status : pystr;
  validation_func : option (pyval -> result bool)
}.

Record MCPGitTester : Type := {
  client : MCPGitClient;
  tests_run : Z;
  tests_passed : Z
}.

(** The world outside the tester: which peer answers the n-th connection
    to a host and port, how many connections were made, and the sockets
    they used, as each call left them. *)
Record world : Type := {
  network : pystr -> Z -> nat -> peer;
  opened : nat;
  sockets : list socket
}.

Definition state : Type := (world * MCPGitTester)%type.

(** Code of the tester: it changes the state and may raise. *)
Definition T (A : Type) : Type := state -> result A * state.

Definition ret {A} (a : A) : T A := fun st => (Return a, st).

Definition bind {A B} (m : T A) (k : A -> T B) : T B :=
  fun st =>
    match m st with
    | (Return a, st') => k a st'
    | (Raise e, st') => (Raise e, st')
    end.

Definition lift {A} (r : result A) : T A := fun st => (r, st).

(** [try: body except Exception as e: handler] *)
Definition try_except {A} (body : T A) (handler : exn -> T A) : T A :=
  fun st =>
    match body st with
    | (Return a, st') => (Return a, st')
    | (Raise e, st') => handler e st'
    end.

Declare Scope tester_scope.
Delimit Scope tester_scope with tester.
Notation "x <- m ;; k" := (bind m (fun x => k))
  (at level 61, m at next level, right associativity) : tester_scope.
Notation "m ;;; k" := (bind m (fun _ => k))
  (at level 61, right associativity) : tester_scope.
Local Open Scope tester_scope.

(** [MCPGitTester(client)] *)
Definition init (c : MCPGitClient) : MCPGitTester :=
  {| client := c; tests_run := 0; tests_passed := 0 |}.

(** [self.tests_run += 1] *)
Definition count_run : T unit :=
  fun '(w, t) =>
    (Return tt,
     (w, {| client := client t; tests_run := tests_run t + 1;
            tests_passed := tests_passed t |})).

(** [self.tests_passed += 1] *)
Definition count_passed : T unit :=
  fun '(w, t) =>
    (Return tt,
     (w, {| client := client t; tests_run := tests_run t;
            tests_passed := tests_passed t + 1 |})).

(** [self.client.send_command(command, params)]: a new connection, answered
    by the peer the network has for it. *)
Definition call_send_command (command : pystr) (params : option pydict)
  : T pyval :=
  fun '(w, t) =>
    let c := client t in
    let p := network w (host c) (port c) (opened w) in
    let (r, sk) := send_command p command params in
    (r, ({| network := network w; opened := S (opened w);
            sockets := sockets w ++ [sk] |}, t)).

(** The [try] block of [run_test]. *)
Definition attempt (tc : TestCase) : T bool :=
  response <- call_send_command (command tc) (params tc) ;;
  status <- lift (Ops.get response (str_of "status") PyNone) ;;
  let status_ok := py_eq status (PyStr (expected_status tc)) in
  validation_ok <-
    match validation_func tc with
    | Some f => lift (f response)
    | None => ret true
    end ;;
  if status_ok && validation_ok
  then count_passed ;;; ret true
  else ret false.

(** [run_test(name, command, params, expected_status, validation_func)].
    The lines it prints are left out. *)
Definition run_test (tc : TestCase) : T bool :=
  count_run ;;;
  try_except (attempt tc) (fun _ => ret false).

(** The validators of the suite. *)

(** ["data" in r and isinstance(r["data"].get(key, []), list)] *)
Definition data_has_list (key : string) (r : pyval) : result bool :=
  let? present := Ops.contains r (str_of "data") in
  if present then
    let? data := Ops.getitem r (str_of "data") in
    let? items := Ops.get data (str_of key) (PyList []) in
    Return (Ops.is_list items)
  else Return false.

(** [len(r.get("data", {}).get("commits", [])) <= 5] *)
Definition at_most_five_commits (r : pyval) : result bool :=
  let? data := Ops.get r (str_of "data") (PyDict []) in
  let? commits := Ops.get data (str_of "commits") (PyList []) in
  let? n := Ops.len commits in
  Return (n <=? 5).

Definition case (n : string) (c : string) (p : option pydict) (e : string)
    (f : option (pyval -> result bool)) : TestCase :=
  {| name := n; command := str_of c; params := p;
     expected_status := str_of e; validation_func := f |}.

Definition test_status : TestCase :=
  case "Basic connectivity - Status" "status" None "success" None.

Definition test_invalid : TestCase :=
  case "Invalid command" "invalid_command" None "error" None.

Definition test_log : TestCase :=
  case "Get commit log (default)" "log" None "success"
       (Some (data_has_list "commits")).

Definition test_log_count : TestCase :=
  case "Get commit log with count" "log"
       (Some [(str_of "count", PyInt 5)]) "success"
       (Some at_most_five_commits).

Definition test_branch : TestCase :=
  case "List branches" "branch" None "success"
       (Some (data_has_list "branches")).

Definition test_remote : TestCase :=
  case "List remote branches" "remote" None "success"
       (Some (data_has_list "remotes")).

(** [run_test_suite()]: six calls of [run_test], whose results are not
    looked at, then the two counters. *)
Definition run_test_suite : T (Z * Z) :=
  run_test test_status ;;;
  run_test test_invalid ;;;
  run_test test_log ;;;
  run_test test_log_count ;;;
  run_test test_branch ;;;
  run_test test_remote ;;;
  (fun st => (Return (tests_passed (snd st), tests_run (snd st)), st)).



End Tester.

(** ** What the harness is expected to check, in the words of its contract *)

Module Expect.

Import Socket Client Tester.


(** The status check: the response has a [status] and it is the expected
    string. *)
Definition status_ok (tc : TestCase) (response : pyval) : Prop :=
  exists d, response = PyDict d /\
            dict_find (str_of "status") d = Some (PyStr (expected_status tc)).

(** The validation check: true when there is no validator, else the
    validator returns [True] on the whole response. *)
Definition validation_ok (tc : TestCase) (response : pyval) : Prop :=
  match validation_func tc with
  | None => True
  | Some f => f response = Return true
  end.


(** What [send_command] gives to the test that runs in this state. *)
Definition reply_at (w : world) (t : MCPGitTester) (tc : TestCase)
  : result pyval :=
  fst (send_command (network w (host (client t)) (port (client t)) (opened w))
                    (command tc) (params tc)).



End Expect.

(** ** The command line: [interactive_mode] and [main] *)

Module Cli.

Import Socket Client Tester.
Local Open Scope Z_scope.

(** [send_command] as its callers on the command line use it: [params] is
    whatever [json.loads] made of the text the user gave, a dict or not,
    and [None] (the text [null]) is replaced by an empty dict. *)
Definition send_command_value (p : peer) (command : pystr) (params : pyval)
  : result pyval * socket :=
  let params := match params with PyNone => PyDict [] | _ => params end in
  let request :=
    PyDict [(str_of "command", PyStr command); (str_of "params", params)] in
  let client := create p in
  try_finally (exchange request) close client.

(** [client.send_command(command, params)] in the world: one more
    connection, answered by the peer the network has for it. *)
Definition call (c : MCPGitClient) (command : pystr) (params : pyval)
    (w : world) : result pyval * world :=
  let p := network w (host c) (port c) (opened w) in
  let (r, sk) := send_command_value p command params in
  (r, {| network := network w; opened := S (opened w);
         sockets := sockets w ++ [sk] |}).

(** [str.lower] on an ASCII letter. *)
Definition ascii_lower (c : N) : N :=
  if ((65 <=? c) && (c <=? 90))%N then (c + 32)%N else c.

(** [command.lower() == 'exit'].  No character outside ASCII has a lower
    case made of the letters e, x, i, t, so the comparison is decided by the
    ASCII letters of the command. *)
Definition is_exit (command : pystr) : bool :=
  pystr_eqb (map ascii_lower command) (str_of "exit").

(** The characters [str.strip] removes. *)
Definition isspace (c : N) : bool :=
  (((9 <=? c) && (c <=? 13)) || ((28 <=? c) && (c <=? 32))
   || (c =? 133) || (c =? 160) || (c =? 5760)
   || ((8192 <=? c) && (c <=? 8202))
   || (c =? 8232) || (c =? 8233) || (c =? 8239) || (c =? 8287)
   || (c =? 12288))%N.

(** [not text.strip()] *)
Definition blank (text : pystr) : bool := forallb isspace text.

(** What [input()] gets from the terminal: a line, or an interrupt from
    the keyboard.  When the list is used up the input is at its end, and
    [input()] raises [EOFError]. *)
Inductive key : Type :=
| Line (text : pystr)
| CtrlC.

(** What the program prints, without its layout. *)
Inductive shown : Type :=
| ShownResponse (response : pyval)
| ShownInvalidParameters
| ShownError (e : exn)
| ShownEndOfInput
| ShownHelp.

Inductive session : Type :=
| Ended (out : list shown) (w : world)
| Running (out : list shown) (w : world).

(** [interactive_mode(client)].  A turn of the loop that does not leave it
    reads at least one line, unless the input is at its end; then [input()]
    raises on every turn and the loop goes on.  [fuel] bounds the number of
    turns. *)
Fixpoint interactive_mode (fuel : nat) (c : MCPGitClient) (stdin : list key)
    (out : list shown) (w : world) : session :=
  match fuel with
  | O => Running out w
  | S fuel' =>
      match stdin with
      | [] => interactive_mode fuel' c [] (out ++ [ShownEndOfInput]) w
      | CtrlC :: _ => Ended out w
      | Line command :: stdin1 =>
          if is_exit command then Ended out w
          else
            match stdin1 with
            | [] => interactive_mode fuel' c [] (out ++ [ShownEndOfInput]) w
            | CtrlC :: _ => Ended out w
            | Line params_input :: stdin2 =>
                let parsed :=
                  if blank params_input then Return (PyDict [])
                  else Json.loads params_input in
                match parsed with
                | Raise JSONDecodeError =>
                    interactive_mode fuel' c stdin2
                      (out ++ [ShownInvalidParameters]) w
                | Raise e =>
                    interactive_mode fuel' c stdin2 (out ++ [ShownError e]) w
                | Return params =>
                    match call c command params w with
                    | (Return response, w') =>
                        interactive_mode fuel' c stdin2
                          (out ++ [ShownResponse response]) w'
                    | (Raise e, w') =>
                        interactive_mode fuel' c stdin2
                          (out ++ [ShownError e]) w'
                    end
                end
            end
      end
  end.

Inductive mode : Type :=
| Interactive
| Test
| Command.

(** The arguments as [argparse] hands them over. *)
Record Namespace : Type := {
  arg_host : pystr;
  arg_port : Z;
  arg_mode : mode;
  arg_command : option pystr;
  arg_params : option pystr
}.

(** How the process ends: with an exit status, or not within the fuel. *)
Inductive ending : Type :=
| Exited (code : Z)
| Unfinished.

(** [main()], from the parsed arguments on.  Returning from [main] is exit
    status 0; [sys.exit(1)] is not caught by [except Exception]. *)
Definition main (fuel : nat) (args : Namespace) (stdin : list key) (w : world)
  : ending * list shown * world :=
  let client := {| host := arg_host args; port := arg_port args |} in
  match arg_mode args with
  | Interactive =>
      match interactive_mode fuel client stdin [] w with
      | Ended out w' => (Exited 0, out, w')
      | Running out w' => (Unfinished, out, w')
      end
  | Test =>
      match run_test_suite (w, init client) with
      | (Return _, (w', _)) => (Exited 0, [], w')
      | (Raise e, (w', _)) => (Exited 1, [ShownError e], w')
      end
  | Command =>
      match arg_command args with
      | None | Some [] => (Exited 1, [ShownHelp], w)
      | Some command =>
          let parsed :=
            match arg_params args with
            | None | Some [] => Return (PyDict [])
            | Some text => Json.loads text
            end in
          match parsed with
          | Raise JSONDecodeError => (Exited 1, [ShownInvalidParameters], w)
          | Raise e => (Exited 1, [ShownError e], w)
          | Return params =>
              match call client command params w with
              | (Return response, w') =>
                  (Exited 0, [ShownResponse response], w')
              | (Raise e, w') => (Exited 1, [ShownError e], w')
              end
          end
      end
  end.

End Cli.

(** ** Definitions for the statements and the proofs *)

Section HarnessDefinitions.

Import Socket Client Tester Expect.
Local Open Scope Z_scope.

(** What [run_test] answers, as a function of what [send_command] gave. *)
Definition verdict (tc : TestCase) (reply : result pyval) : bool :=
  match reply with
  | Raise _ => false
  | Return response =>
      match Ops.get response (str_of "status") PyNone with
      | Raise _ => false
      | Return status =>
          match validation_func tc with
          | None => py_eq status (PyStr (expected_status tc))
          | Some f =>
              match f response with
              | Return b => py_eq status (PyStr (expected_status tc)) && b
              | Raise _ => false
              end
          end
      end
  end.

(** The state one [run_test] leaves. *)
Definition after_test (tc : TestCase) (st : state) : state :=
  let (w, t) := st in
  let c := client t in
  let p := network w (host c) (port c) (opened w) in
  ({| network := network w; opened := S (opened w);
      sockets := sockets w ++ [snd (send_command p (command tc) (params tc))] |},
   {| client := c; tests_run := tests_run t + 1;
      tests_passed :=
        tests_passed t + (if verdict tc (reply_at w t tc) then 1 else 0) |}).



End HarnessDefinitions.

Section FramingDefinitions.

Import Socket Client.
Local Open Scope Z_scope.

(** The loop from some accumulated data on. *)
Definition recv_more (response_len : Z) (response_data : list byte)
  : M (list byte) :=
  fun s => recv_loop (S (pending (inbox s))) response_len response_data s.

(** The socket is open and [close] was not called. *)
Definition in_use (s : socket) : Prop :=
  closed s = false /\ ~ In Close (calls s).

Definition keeps_open {A} (m : M A) : Prop :=
  forall s, in_use s -> in_use (snd (m s)).

(** A peer that accepts the connection and the request and then delivers
    these arrivals. *)
Definition serving (evs : list event) : peer :=
  {| refuses := None; send_fault := None; arrivals := evs |}.

(** A socket connected to it, before anything was received. *)
Definition arriving (evs : list event) : socket :=
  snd (connect (create (serving evs))).

Fixpoint stream_bytes (chunks : list (list byte)) : list byte :=
  match chunks with
  | [] => []
  | c :: rest => c ++ stream_bytes rest
  end.

(** What the receiver makes of the bytes of a stream when the first
    [recv] returns the whole prefix: the first 4 bytes are the length, the
    bytes after them, up to that length, the payload. *)
Definition decode_message (bytes : list byte) : result pyval :=
  parse_response
    (firstn (Z.to_nat (Bytes.int_from_bytes (firstn 4 bytes))) (skipn 4 bytes)).

(** A peer that answers with one framed JSON value, in one piece. *)
Definition answering (v : pyval) : peer :=
  match encode_message v with
  | Return message => serving [Data message]
  | Raise _ => serving []
  end.

(** A peer that refuses the connection. *)
Definition refusing : peer :=
  {| refuses := Some ConnectionRefusedError; send_fault := None;
     arrivals := [] |}.

End FramingDefinitions.

Section Examples.

Import Socket Client Tester.
Local Open Scope Z_scope.

Definition localhost : MCPGitClient :=
  {| host := str_of "localhost"; port := 9876 |}.

(** A new tester in a world where the n-th connection meets [peers n]. *)
Definition fresh (peers : nat -> peer) : state :=
  ({| network := fun _ _ n => peers n; opened := 0; sockets := [] |},
   init localhost).

Definition success (data : pyval) : pyval :=
  PyDict [(str_of "status", PyStr (str_of "success")); (str_of "data", data)].

(** A request with nested parameters, and its encoding. *)
Definition sample_request : pyval :=
  make_request (str_of "log")
    [(str_of "count", PyInt 5);
     (str_of "paths", PyList [PyStr (str_of "src"); PyNone; PyBool true]);
     (str_of "since", PyDict [(str_of "days", PyInt (-7))])].

Definition sample_message : list byte :=
  match encode_message sample_request with
  | Return message => message
  | Raise _ => []
  end.

End Examples.

Section JsonDefinitions.

Import Json.
Local Open Scope N_scope.




(** A code point of Unicode text: below 0x110000 and not a surrogate. *)
Definition scalar (c : N) : bool :=
  (c <? 1114112) && negb ((55296 <=? c) && (c <=? 57343)).


Fixpoint unique_keys (d : pydict) : bool :=
  match d with
  | [] => true
  | (k, _) :: d' => negb (dict_contains k d') && unique_keys d'
  end.

(** The values that JSON represents exactly: no tuple, no float, no
    foreign object; text made of Unicode scalar values; dicts without a
    repeated key. *)
Fixpoint json_exact (v : pyval) : bool :=
  match v with
  | PyNone | PyBool _ | PyInt _ => true
  | PyStr s => forallb scalar s
  | PyList xs => forallb json_exact xs
  | PyDict kvs =>
      forallb (fun kv : pystr * pyval =>
                 let (k, x) := kv in forallb scalar k && json_exact x) kvs
      && unique_keys kvs
  | PyFloat _ | PyTuple _ | PyObject _ => false
  end.

Section Measure.
Context {A : Type} (f : A -> nat).
End Measure.


Section PyvalInduction.
Variable P : pyval -> Prop.
Hypothesis H_none : P PyNone.
Hypothesis H_bool : forall b, P (PyBool b).
Hypothesis H_int : forall z, P (PyInt z).
Hypothesis H_float : forall lit, P (PyFloat lit).
Hypothesis H_str : forall s, P (PyStr s).
Hypothesis H_list : forall xs, Forall P xs -> P (PyList xs).
Hypothesis H_tuple : forall xs, Forall P xs -> P (PyTuple xs).
Hypothesis H_dict :
  forall kvs, Forall (fun kv => P (snd kv)) kvs -> P (PyDict kvs).
Hypothesis H_object : forall cls, P (PyObject cls).

Fixpoint pyval_induction (v : pyval) : P v :=
  match v with
  | PyNone => H_none
  | PyBool b => H_bool b
  | PyInt z => H_int z
  | PyFloat lit => H_float lit
  | PyStr s => H_str s
  | PyList xs =>
      H_list
        ((fix all (l : list pyval) : Forall P l :=
            match l with
            | [] => Forall_nil P
            | x :: l' => Forall_cons x (pyval_induction x) (all l')
            end) xs)
  | PyTuple xs =>
      H_tuple
        ((fix all (l : list pyval) : Forall P l :=
            match l with
            | [] => Forall_nil P
            | x :: l' => Forall_cons x (pyval_induction x) (all l')
            end) xs)
  | PyDict kvs =>
      H_dict
        ((fix all (l : pydict) : Forall (fun kv => P (snd kv)) l :=
            match l with
            | [] => Forall_nil _
            | (k, x) :: l' =>
                Forall_cons (P := fun kv => P (snd kv)) (k, x)
                            (pyval_induction x) (all l')
            end) kvs)
  | PyObject cls => H_object cls
  end.
End PyvalInduction.



Definition dumps_pair (kv : pystr * pyval) : result pystr :=
  let (k, x) := kv in
  let? t := dumps x in
  Return (encode_basestring_ascii k ++ key_separator ++ t).

Definition ascii_text (t : pystr) : bool := forallb (fun c => c <? 128) t.

(** Only a syntax error is raised. *)
Definition syntax_error_only {A} (r : result A) : Prop :=
  forall e, r = Raise e -> e = JSONDecodeError.

(** What is returned leaves less input than there was. *)
Definition consumes {A} (s : pystr) (r : result (A * pystr)) : Prop :=
  forall a rest, r = Return (a, rest) -> (List.length rest < List.length s)%nat.

End JsonDefinitions.

(** ** Definitions for the properties of the exchange and the command line *)

Section TraceDefinitions.

Import Socket Client.
Local Open Scope Z_scope.

(** A [recv] call that asks for at least one byte and at most 4096. *)
Definition bounded_recv (c : call) : Prop :=
  exists n, c = Recv n /\ 1 <= n <= 4096.

(** Code that only receives: it sends nothing, and what it adds to the
    calls are bounded [recv] calls. *)
Definition only_receives {A} (m : M A) : Prop :=
  forall s,
    sent (snd (m s)) = sent s /\
    exists recvs,
      calls (snd (m s)) = calls s ++ recvs /\ Forall bounded_recv recvs.

End TraceDefinitions.

Section CliDefinitions.

Import Socket Client Tester Cli.




Definition world_of (s : session) : world :=
  match s with
  | Ended _ w => w
  | Running _ w => w
  end.

(** The world [w'] comes from [w] by some connections, each on a socket
    that was closed again. *)
Definition grown (w w' : world) : Prop :=
  network w' = network w /\
  exists new,
    sockets w' = sockets w ++ new /\
    opened w' = (opened w + List.length new)%nat /\
    Forall (fun sk => closed sk = true) new.

End CliDefinitions.

(** * Properties *)

(** ** The test harness *)

Section Harness.

Import Socket Client Tester Expect.
Local Open Scope Z_scope.

Lemma run_test_eq (tc : TestCase) (st : state) :
  run_test tc st = (Return (verdict tc (reply_at (fst st) (snd st) tc)),
                    after_test tc st).
Proof.
  destruct st as [w t].
  unfold after_test, reply_at.
  unfold run_test, attempt, try_except, bind, count_run, call_send_command,
    count_passed, lift, ret, verdict, fst, snd.
  destruct (send_command _ _ _) as [[response | e] sk]; cbv beta iota.
  - destruct (Ops.get response _ PyNone) as [status | e].
    + destruct (validation_func tc) as [f |].
      * destruct (f response) as [b | e].
        -- destruct (py_eq status (PyStr (expected_status tc))), b; cbn;
             rewrite ?Z.add_0_r; reflexivity.
        -- rewrite Z.add_0_r; reflexivity.
      * destruct (py_eq status (PyStr (expected_status tc))); cbn;
          rewrite ?Z.add_0_r; reflexivity.
    + rewrite Z.add_0_r; reflexivity.
  - rewrite Z.add_0_r; reflexivity.
Qed.

Lemma pystr_eqb_eq (a b : pystr) : pystr_eqb a b = true <-> a = b.
Proof.
  unfold pystr_eqb. destruct (list_eq_dec N.eq_dec a b); split; congruence.
Qed.












End Harness.

Section HarnessContract.

Import Socket Client Tester Expect.
Local Open Scope Z_scope.

(** C7.  Every call of [run_test] adds exactly one to [tests_run], whether
    the test passes, fails a check, or the client or the validator raises. *)
Theorem run_test_counts_one_run (tc : TestCase) (st : state) :
  tests_run (snd (snd (run_test tc st))) = tests_run (snd st) + 1.
Proof.
  rewrite run_test_eq. destruct st as [w t]. reflexivity.
Qed.






End HarnessContract.

(** ** The socket and the framing *)

Section Framing.

Import Socket Client.
Local Open Scope Z_scope.

(** What [take] returns is a piece of what was pending. *)
Lemma take_pending (n : nat) (evs : list event) :
  match take n evs with
  | (Return chunk, evs') =>
      pending evs = (List.length chunk + pending evs')%nat /\
      (List.length chunk <= n)%nat
  | (Raise _, evs') => (pending evs' <= pending evs)%nat
  end.
Proof.
  induction evs as [| [bs | e] rest IH]; cbn [take].
  - cbn. lia.
  - destruct bs as [| b bs'].
    + destruct (take n rest) as [[chunk | e] evs'];
        cbn [pending List.length Nat.add] in *; lia.
    + cbn [pending]. split.
      * rewrite <- (firstn_skipn n (b :: bs')) at 1.
        rewrite length_app. lia.
      * apply firstn_le_length.
  - cbn. lia.
Qed.

(** No turn of the loop depends on the fuel, as long as the fuel is above
    the number of pending bytes. *)
Lemma recv_loop_fuel (response_len : Z) (fuel1 : nat) :
  forall (fuel2 : nat) (response_data : list byte) (s : socket),
    (pending (inbox s) < fuel1)%nat -> (pending (inbox s) < fuel2)%nat ->
    recv_loop fuel1 response_len response_data s =
    recv_loop fuel2 response_len response_data s.
Proof.
  induction fuel1 as [| fuel1 IH]; intros fuel2 data s H1 H2; [lia |].
  destruct fuel2 as [| fuel2]; [lia |].
  cbn [recv_loop].
  destruct (Bytes.len data <? response_len); [| reflexivity].
  unfold recv, logged; cbn [closed inbox].
  destruct (closed s); [reflexivity |].
  pose proof (take_pending
                (Z.to_nat (Z.min 4096 (response_len - Bytes.len data)))
                (inbox s)) as Ht.
  destruct (take _ (inbox s)) as [[chunk | e] evs']; [| reflexivity].
  destruct chunk as [| b chunk']; [reflexivity |].
  apply IH; cbn [inbox List.length] in *; lia.
Qed.

(** The equation of the [while] loop: test, read, leave on an empty chunk,
    else append and go round again. *)
Lemma recv_more_unfold (response_len : Z) (response_data : list byte)
    (s : socket) :
  recv_more response_len response_data s =
    if Bytes.len response_data <? response_len then
      match recv (Z.min 4096 (response_len - Bytes.len response_data)) s with
      | (Return [], s') => (Return response_data, s')
      | (Return chunk, s') =>
          recv_more response_len (response_data ++ chunk) s'
      | (Raise e, s') => (Raise e, s')
      end
    else (Return response_data, s).
Proof.
  unfold recv_more at 1. cbn [recv_loop].
  destruct (Bytes.len response_data <? response_len); [| reflexivity].
  unfold recv, logged; cbn [closed inbox].
  destruct (closed s); [reflexivity |].
  pose proof (take_pending
                (Z.to_nat (Z.min 4096 (response_len - Bytes.len response_data)))
                (inbox s)) as Ht.
  destruct (take _ (inbox s)) as [[chunk | e] evs']; [| reflexivity].
  destruct chunk as [| b chunk']; [reflexivity |].
  unfold recv_more. apply recv_loop_fuel; cbn [inbox List.length] in *; lia.
Qed.

Lemma recv_data_is_loop (response_len : Z) (s : socket) :
  recv_data response_len s = recv_more response_len [] s.
Proof. reflexivity. Qed.

(** *** The socket is closed once, last *)

Lemma in_use_logged (c : call) (s : socket) :
  c <> Close -> in_use s -> in_use (logged c s).
Proof.
  intros Hc [Ho Hn]. split; [exact Ho |]. cbn. rewrite in_app_iff.
  intros [H | [H | []]]; [exact (Hn H) | congruence].
Qed.

Lemma keeps_open_ret {A} (a : A) : keeps_open (ret a).
Proof. intros s H. exact H. Qed.

Lemma keeps_open_lift {A} (r : result A) : keeps_open (lift r).
Proof. intros s H. exact H. Qed.

Lemma keeps_open_bind {A B} (m : M A) (k : A -> M B) :
  keeps_open m -> (forall a, keeps_open (k a)) -> keeps_open (bind m k).
Proof.
  intros Hm Hk s H. unfold bind. specialize (Hm s H).
  destruct (m s) as [[a | e] s']; cbn [snd] in *.
  - apply Hk. exact Hm.
  - exact Hm.
Qed.

Lemma keeps_open_connect : keeps_open connect.
Proof.
  intros s H. apply (in_use_logged (c := Connect)) in H; [| discriminate].
  unfold connect. destruct H as [Ho Hn].
  rewrite Ho. destruct (refuses _); split; cbn in *; assumption || reflexivity.
Qed.

Lemma keeps_open_sendall (data : list byte) : keeps_open (sendall data).
Proof.
  intros s H. apply (in_use_logged (c := Sendall data)) in H; [| discriminate].
  unfold sendall. destruct H as [Ho Hn].
  rewrite Ho. destruct (send_fault _); split; cbn in *; assumption || reflexivity.
Qed.

Lemma keeps_open_recv (bufsize : Z) : keeps_open (recv bufsize).
Proof.
  intros s H. apply (in_use_logged (c := Recv bufsize)) in H; [| discriminate].
  unfold recv. destruct H as [Ho Hn].
  rewrite Ho. destruct (take _ _); split; cbn in *; assumption || reflexivity.
Qed.

Lemma keeps_open_recv_loop (response_len : Z) (fuel : nat) :
  forall response_data, keeps_open (recv_loop fuel response_len response_data).
Proof.
  induction fuel as [| fuel IH]; intros data s H; cbn [recv_loop].
  - destruct (_ <? _); exact H.
  - destruct (_ <? _); [| exact H].
    pose proof (keeps_open_recv
                  (Z.min 4096 (response_len - Bytes.len data)) H) as Hr.
    destruct (recv _ s) as [[chunk | e] s']; cbn [snd] in *; [| exact Hr].
    destruct chunk; [exact Hr |]. apply IH. exact Hr.
Qed.

Lemma keeps_open_exchange (request : pyval) : keeps_open (exchange request).
Proof.
  unfold exchange, receive_response, recv_length.
  repeat (apply keeps_open_bind; intros);
    auto using keeps_open_connect, keeps_open_lift, keeps_open_sendall,
               keeps_open_recv, keeps_open_ret.
  intros s H. apply keeps_open_recv_loop. exact H.
Qed.

(** C9.  Whatever the peer does, and whether [send_command] returns or
    raises, the socket it opened is closed when it leaves: [close] is the
    last call made on the socket, and the only [close]. *)
Theorem send_command_closes_socket (p : peer) (command : pystr)
    (params : option pydict) :
  let sk := snd (send_command p command params) in
  closed sk = true /\
  exists before, calls sk = before ++ [Close] /\ ~ In Close before.
Proof.
  cbv zeta. unfold send_command, try_finally.
  set (request := make_request command _).
  assert (H : in_use (create p)) by (split; [reflexivity | intros []]).
  apply (keeps_open_exchange request) in H.
  destruct (exchange request (create p)) as [r s1]. cbn [snd] in H.
  cbn. split; [reflexivity |].
  exists (calls s1). split; [reflexivity | apply H].
Qed.

(** C1, as stated, fails: two bytes and then end of file give the length 1,
    not an exception. *)
Lemma short_prefix_yields_a_length :
  fst (recv_length (arriving [Data [x00; x01]])) = Return 1 /\
  is_raise (fst (recv_length (arriving [Data [x00; x01]]))) = false.
Proof. split; reflexivity. Qed.

(** C1, amended.  The length is read by one [recv(4)].  When fewer than 4
    bytes arrive before end of file, no exception is raised at that step:
    the bytes that came are the big-endian length (0 for none); no payload
    follows, and the call fails when the empty payload is parsed, with
    [JSONDecodeError]. *)
Theorem short_prefix_fails_at_json (bs : list byte) (s : socket) :
  closed s = false ->
  inbox s = [Data bs] ->
  (List.length bs < 4)%nat ->
  fst (recv_length s) = Return (Bytes.int_from_bytes bs) /\
  calls (snd (recv_length s)) = calls s ++ [Recv 4] /\
  fst (receive_response s) = Raise JSONDecodeError.
Proof.
  intros Ho Hi Hl.
  unfold receive_response, recv_data, recv_length, bind, ret, lift, recv,
    logged; cbn [closed inbox calls].
  rewrite Ho, Hi.
  destruct bs as [| a [| b [| c [| d bs']]]]; cbn [List.length] in Hl;
    try lia; cbn [take firstn skipn fst snd calls inbox pending List.length
                  Nat.add recv_loop closed];
    (repeat split; try reflexivity);
    rewrite ?Ho; cbn [take fst]; destruct (_ <? _); reflexivity.
Qed.

(** *** A stream that only delivers data *)

Lemma take_data (n : nat) (chunks : list (list byte)) :
  exists k chunks',
    take n (map Data chunks) =
      (Return (firstn k (stream_bytes chunks)), map Data chunks') /\
    stream_bytes chunks' = skipn k (stream_bytes chunks) /\
    (k <= n)%nat /\ (k <= List.length (stream_bytes chunks))%nat /\
    ((0 < n)%nat -> stream_bytes chunks <> [] -> (0 < k)%nat).
Proof.
  induction chunks as [| c rest IH]; cbn [map take stream_bytes].
  - exists 0%nat, []. cbn. repeat split; auto with arith. congruence.
  - destruct c as [| b c'].
    + exact IH.
    + exists (Nat.min n (List.length (b :: c'))), (skipn n (b :: c') :: rest).
      cbn [map stream_bytes].
      assert (Hf : firstn (Nat.min n (List.length (b :: c')))
                     ((b :: c') ++ stream_bytes rest) = firstn n (b :: c')).
      { rewrite firstn_app.
        replace (Nat.min n (List.length (b :: c')) - List.length (b :: c'))%nat
          with 0%nat by lia.
        cbn [firstn]. rewrite app_nil_r.
        destruct (Nat.le_ge_cases n (List.length (b :: c'))) as [H | H].
        - rewrite Nat.min_l by exact H. reflexivity.
        - rewrite Nat.min_r by exact H.
          rewrite firstn_all. symmetry. apply firstn_all2. exact H. }
      assert (Hs : skipn (Nat.min n (List.length (b :: c')))
                     ((b :: c') ++ stream_bytes rest)
                   = skipn n (b :: c') ++ stream_bytes rest).
      { rewrite skipn_app.
        replace (Nat.min n (List.length (b :: c')) - List.length (b :: c'))%nat
          with 0%nat by lia.
        cbn [skipn].
        destruct (Nat.le_ge_cases n (List.length (b :: c'))) as [H | H].
        - rewrite Nat.min_l by exact H. reflexivity.
        - rewrite Nat.min_r by exact H.
          rewrite skipn_all. rewrite skipn_all2 by exact H. reflexivity. }
      rewrite Hf, Hs. repeat split.
      * apply Nat.le_min_l.
      * rewrite length_app. cbn [List.length]. lia.
      * cbn [List.length]. lia.
Qed.

(** On such a stream the loop returns the first [response_len] bytes, or
    all of them when fewer arrive. *)
Lemma recv_loop_data (response_len : Z) (fuel : nat) :
  forall (chunks : list (list byte)) (response_data : list byte) (s : socket),
    closed s = false ->
    inbox s = map Data chunks ->
    (List.length (stream_bytes chunks) < fuel)%nat ->
    fst (recv_loop fuel response_len response_data s) =
      Return (response_data ++
              firstn (Z.to_nat (response_len - Bytes.len response_data))
                     (stream_bytes chunks)).
Proof.
  induction fuel as [| fuel IH]; intros chunks data s Ho Hi Hf; [lia |].
  cbn [recv_loop]. destruct (Z.ltb_spec (Bytes.len data) response_len) as [Hlt | Hge].
  - unfold recv, logged; cbn [closed inbox]. rewrite Ho, Hi.
    set (n := Z.to_nat (Z.min 4096 (response_len - Bytes.len data))).
    destruct (take_data n chunks) as (k & chunks' & Ht & Hs & Hkn & Hkl & Hpos).
    rewrite Ht.
    destruct (firstn k (stream_bytes chunks)) as [| b chunk'] eqn:Hc.
    + cbn [fst]. f_equal.
      destruct (stream_bytes chunks) as [| b0 bs0] eqn:Hb.
      * rewrite firstn_nil, app_nil_r. reflexivity.
      * assert (0 < k)%nat by (apply Hpos; [unfold n; lia | congruence]).
        destruct k; [lia | discriminate].
    + assert (Hlen : List.length (b :: chunk') = k)
        by (rewrite <- Hc; apply firstn_length_le; exact Hkl).
      assert (Hfuel : (List.length (stream_bytes chunks') < fuel)%nat)
        by (rewrite Hs, length_skipn; cbn [List.length] in Hlen; lia).
      cbn [fst snd].
      erewrite (IH chunks' (data ++ b :: chunk'));
        [| reflexivity | reflexivity | exact Hfuel].
      f_equal. rewrite <- app_assoc. f_equal.
      assert (Hk : (k <= Z.to_nat (response_len - Bytes.len data))%nat)
        by (unfold n in Hkn; lia).
      rewrite <- (firstn_skipn k (stream_bytes chunks)) at 1.
      rewrite firstn_app, Hc, Hs, Hlen.
      rewrite (firstn_all2 (n := Z.to_nat _) (b :: chunk'))
        by (rewrite Hlen; exact Hk).
      f_equal. f_equal. unfold Bytes.len in *. rewrite length_app, Hlen. lia.
  - cbn [fst]. replace (Z.to_nat (response_len - Bytes.len data)) with 0%nat by lia.
    cbn [firstn]. rewrite app_nil_r. reflexivity.
Qed.

(** Partial reads after the prefix do not matter: however the rest of the
    stream is cut into pieces, the response is the same. *)
Lemma receive_response_chunked (first : list byte) (rest : list (list byte))
    (s : socket) :
  closed s = false ->
  inbox s = Data first :: map Data rest ->
  (4 <= List.length first)%nat ->
  fst (receive_response s) = decode_message (first ++ stream_bytes rest).
Proof.
  intros Ho Hi Hl.
  unfold receive_response, recv_length, bind, ret, lift.
  unfold recv at 1, logged; cbn [closed inbox]. rewrite Ho, Hi.
  destruct first as [| b first']; [cbn in Hl; lia |].
  cbn [take]. change (Z.to_nat 4) with 4%nat.
  set (s1 := {| remote := _ |}).
  pose proof (@recv_loop_data
                (Bytes.int_from_bytes (firstn 4 (b :: first')))
                (S (pending (inbox s1)))
                (skipn 4 (b :: first') :: rest) [] s1 eq_refl eq_refl) as H.
  unfold recv_data.
  destruct (recv_loop _ _ [] s1) as [r s2]. cbn [fst] in H.
  rewrite H.
  - cbn [fst app]. unfold decode_message, Bytes.len.
    cbn [List.length Z.of_nat]. rewrite Z.sub_0_r.
    rewrite firstn_app, skipn_app.
    replace (4 - List.length (b :: first'))%nat with 0%nat by lia.
    cbn [firstn skipn stream_bytes]. rewrite app_nil_r. reflexivity.
  - cbn [s1 inbox pending stream_bytes]. rewrite length_app.
    assert (forall cs, pending (map Data cs) = List.length (stream_bytes cs)) as E.
    { induction cs as [| c cs IHc]; cbn; [reflexivity |].
      rewrite length_app, IHc. reflexivity. }
    rewrite E. lia.
Qed.

(** C3, at a split inside the prefix: the same six bytes give an empty
    dict when they arrive together, and [JSONDecodeError] when the first
    piece holds two bytes of the prefix, because the single [recv(4)]
    takes those two bytes for the whole length. *)
Theorem split_prefix_changes_response :
  let message := [x00; x00; x00; x02; x7b; x7d] in
  fst (send_command (serving [Data message]) (str_of "status") None)
    = Return (PyDict []) /\
  fst (send_command (serving [Data (firstn 2 message); Data (skipn 2 message)])
                    (str_of "status") None)
    = Raise JSONDecodeError.
Proof. split; vm_compute; reflexivity. Qed.

End Framing.

(** ** The JSON text and the whole exchange *)

Section JsonRoundTrip.

Import Json.
Local Open Scope N_scope.

(** *** Checking a property of all numbers below a power of two *)


(** *** Escapes *)





(** *** Strings *)







(** *** Integers *)







Lemma digit_range (c : N) : is_digit c = true <-> 48 <= c <= 57.
Proof.
  unfold is_digit. rewrite andb_true_iff, !N.leb_le. reflexivity.
Qed.







(** *** Values *)




Lemma mapM_cons {A B : Type} (f : A -> result B) (x : A) (xs : list A)
    (ys : list B) :
  mapM f (x :: xs) = Return ys ->
  exists y ys', f x = Return y /\ mapM f xs = Return ys' /\ ys = y :: ys'.
Proof.
  cbn [mapM]. destruct (f x) as [y | e]; [| discriminate]. cbn [rbind].
  destruct (mapM f xs) as [ys' | e]; [| discriminate]. cbn [rbind].
  intros [= <-]. eauto.
Qed.

Lemma join_cons (sep t : pystr) (ts : list pystr) :
  join sep (t :: ts) =
    match ts with
    | [] => t
    | _ :: _ => t ++ sep ++ join sep ts
    end.
Proof. destruct ts; reflexivity. Qed.



(** *** Dicts without a repeated key *)






(** *** Every exact value is read back from its text *)


(** *** The fuel [loads] gives is enough *)





(** *** The text [dumps] writes is ASCII *)

Lemma ascii_text_app (a b : pystr) :
  ascii_text (a ++ b) = ascii_text a && ascii_text b.
Proof. apply forallb_app. Qed.

Lemma hex_digit_ascii (n : N) : n < 16 -> (hex_digit n <? 128) = true.
Proof.
  intros H. unfold hex_digit. apply N.ltb_lt.
  destruct (n <? 10); lia.
Qed.

Lemma u_escape_ascii (n : N) : ascii_text (u_escape n) = true.
Proof.
  unfold u_escape, hex4, ascii_text. cbn [forallb].
  rewrite !hex_digit_ascii by (apply N.mod_lt; discriminate). reflexivity.
Qed.

Lemma escape_char_ascii (c : N) : ascii_text (escape_char c) = true.
Proof.
  unfold escape_char.
  repeat match goal with
         | |- context [if ?a =? ?b then _ else _] =>
             destruct (a =? b); [reflexivity |]
         end.
  destruct (N.leb_spec 32 c), (N.leb_spec c 126); cbn [andb].
  - unfold ascii_text. cbn [forallb].
    rewrite (proj2 (N.ltb_lt c 128)) by lia. reflexivity.
  - destruct (c <? 65536); [apply u_escape_ascii |].
    cbv zeta. rewrite ascii_text_app, !u_escape_ascii. reflexivity.
  - destruct (c <? 65536); [apply u_escape_ascii |].
    cbv zeta. rewrite ascii_text_app, !u_escape_ascii. reflexivity.
  - destruct (c <? 65536); [apply u_escape_ascii |].
    cbv zeta. rewrite ascii_text_app, !u_escape_ascii. reflexivity.
Qed.

Lemma encode_basestring_ascii_ascii (s : pystr) :
  ascii_text (encode_basestring_ascii s) = true.
Proof.
  unfold encode_basestring_ascii.
  change (34 :: ?l) with ([34] ++ l). rewrite !ascii_text_app.
  replace (ascii_text (flat_map escape_char s)) with true; [reflexivity |].
  symmetry. induction s as [| c s IH]; [reflexivity |].
  cbn [flat_map]. rewrite ascii_text_app, escape_char_ascii, IH. reflexivity.
Qed.

Lemma uint_chars_ascii (d : Decimal.uint) : ascii_text (uint_chars d) = true.
Proof.
  induction d; cbn [uint_chars ascii_text forallb]; try reflexivity;
    exact IHd.
Qed.

Lemma join_ascii (ts : list pystr) :
  forallb ascii_text ts = true -> ascii_text (join item_separator ts) = true.
Proof.
  induction ts as [| t ts IH]; [reflexivity |].
  cbn [forallb]. intros H. apply andb_prop in H as [Ht Hts].
  rewrite join_cons. destruct ts as [| t2 ts']; [exact Ht |].
  rewrite !ascii_text_app, Ht, (IH Hts). reflexivity.
Qed.

Lemma dumps_ascii (v : pyval) :
  json_exact v = true ->
  forall t, dumps v = Return t -> ascii_text t = true.
Proof.
  induction v as [| b | z | lit | s | xs IH | xs IH | kvs IH | cls]
    using pyval_induction;
    cbn [json_exact]; try discriminate; intros Hex t Ht.
  - injection Ht as <-. reflexivity.
  - destruct b; injection Ht as <-; reflexivity.
  - cbn [dumps] in Ht. injection Ht as <-.
    destruct z; cbn [repr_int]; apply uint_chars_ascii.
  - cbn [dumps] in Ht. injection Ht as <-.
    apply encode_basestring_ascii_ascii.
  - cbn [dumps] in Ht.
    destruct (mapM dumps xs) as [ts |] eqn:Hts; [| discriminate].
    cbn [rbind] in Ht. injection Ht as <-.
    change (91 :: ?l) with ([91] ++ l). rewrite !ascii_text_app.
    rewrite join_ascii; [reflexivity |].
    clear - IH Hex Hts. revert ts Hts.
    induction xs as [| x xs IHxs]; intros ts Hts.
    + cbn in Hts. injection Hts as <-. reflexivity.
    + apply mapM_cons in Hts as (t & ts' & Ht & Hts' & ->).
      inversion IH as [| ? ? Hx HP']; subst.
      cbn [forallb] in *. apply andb_prop in Hex as [Hex Hexs].
      rewrite (Hx Hex t Ht), (IHxs HP' Hexs ts' Hts'). reflexivity.
  - change (dumps (PyDict kvs))
      with (let? ts := mapM dumps_pair kvs in
            Return (123 :: join item_separator ts ++ [125])) in Ht.
    apply andb_prop in Hex as [Hex _].
    destruct (mapM dumps_pair kvs) as [ts |] eqn:Hts; [| discriminate].
    cbn [rbind] in Ht. injection Ht as <-.
    change (123 :: ?l) with ([123] ++ l). rewrite !ascii_text_app.
    rewrite join_ascii; [reflexivity |].
    clear - IH Hex Hts. revert ts Hts.
    induction kvs as [| [k x] kvs IHk]; intros ts Hts.
    + cbn in Hts. injection Hts as <-. reflexivity.
    + apply mapM_cons in Hts as (t & ts' & Ht & Hts' & ->).
      inversion IH as [| ? ? Hx HP']; subst. cbn [snd] in Hx.
      cbn [forallb] in *. apply andb_prop in Hex as [Hex Hexs].
      apply andb_prop in Hex as [_ Hex].
      unfold dumps_pair in Ht.
      destruct (dumps x) as [tx | e] eqn:Hdx; [| discriminate].
      cbn [rbind] in Ht. injection Ht as <-.
      assert (Hp : ascii_text (encode_basestring_ascii k ++ key_separator ++ tx)
                   = true).
      { rewrite !ascii_text_app, encode_basestring_ascii_ascii,
          (Hx Hex tx eq_refl). reflexivity. }
      rewrite (IHk HP' Hexs ts' Hts'), andb_true_r. exact Hp.
Qed.

(** *** UTF-8 and the length prefix *)

Lemma byte_of_to_N (c : N) : c < 256 -> Byte.to_N (Bytes.byte_of c) = c.
Proof.
  intros H. unfold Bytes.byte_of.
  destruct (Byte.of_N c) as [b |] eqn:E.
  - apply Byte.to_of_N. exact E.
  - apply Byte.of_N_None_iff in E. lia.
Qed.

Lemma encode_ascii (t : pystr) :
  ascii_text t = true -> Bytes.encode t = Return (map Bytes.byte_of t).
Proof.
  induction t as [| c t IH]; [reflexivity |].
  cbn [ascii_text forallb]. intros H. apply andb_prop in H as [Hc Ht].
  cbn [Bytes.encode map]. unfold Bytes.encode_char. rewrite Hc.
  cbn [rbind]. rewrite (IH Ht). reflexivity.
Qed.


Lemma int_from_bytes4 (a b c d : byte) :
  Bytes.int_from_bytes [a; b; c; d] =
    (((Z.of_N (Byte.to_N a) * 256 + Z.of_N (Byte.to_N b)) * 256
      + Z.of_N (Byte.to_N c)) * 256 + Z.of_N (Byte.to_N d))%Z.
Proof. reflexivity. Qed.

(** The 4 bytes [to_bytes] writes are read back by [from_bytes]. *)
Lemma int_to_from_bytes (n : Z) (bs : list byte) :
  Bytes.int_to_bytes4 n = Return bs ->
  List.length bs = 4%nat /\ Bytes.int_from_bytes bs = n /\
  (0 <= n < 4294967296)%Z.
Proof.
  unfold Bytes.int_to_bytes4.
  destruct (Z.leb_spec 0 n) as [H0 | H0]; [| discriminate].
  destruct (Z.ltb_spec n 4294967296) as [H1 | H1]; [| discriminate].
  cbn [andb]. intros [= <-]. split; [reflexivity |]. split; [| lia].
  rewrite int_from_bytes4.
  rewrite !byte_of_to_N.
  - rewrite !Z2N.id by (try apply Z.mod_pos_bound; try apply Z.div_pos; lia).
    pose proof (Z.div_mod n 256 ltac:(lia)) as E0.
    pose proof (Z.div_mod (n / 256) 256 ltac:(lia)) as E1.
    pose proof (Z.div_mod (n / 256 / 256) 256 ltac:(lia)) as E2.
    rewrite !Z.div_div in E1, E2 by lia.
    rewrite !Z.div_div in E2 by lia.
    change (256 * 256)%Z with 65536%Z in *.
    change (65536 * 256)%Z with 16777216%Z in *.
    lia.
  - apply N2Z.inj_lt. rewrite Z2N.id by (apply Z.mod_pos_bound; lia).
    apply Z.mod_pos_bound. lia.
  - apply N2Z.inj_lt. rewrite Z2N.id by (apply Z.mod_pos_bound; lia).
    apply Z.mod_pos_bound. lia.
  - apply N2Z.inj_lt. rewrite Z2N.id by (apply Z.mod_pos_bound; lia).
    apply Z.mod_pos_bound. lia.
  - apply N2Z.inj_lt. rewrite Z2N.id by (apply Z.div_pos; lia).
    apply Z.div_lt_upper_bound; lia.
Qed.

(** *** The scanner never runs out of fuel *)

Lemma raise_syntax_error {A} : syntax_error_only (@Raise A JSONDecodeError).
Proof. intros e [= <-]. reflexivity. Qed.

Lemma return_no_error {A} (a : A) : syntax_error_only (Return a).
Proof. intros e H. discriminate. Qed.

Lemma raise_consumes {A} (s : pystr) (e : exn) :
  consumes s (@Raise (A * pystr) e).
Proof. intros a rest H. discriminate. Qed.

Lemma prepend_syntax_error (c : N) (r : result (pystr * pystr)) :
  syntax_error_only r -> syntax_error_only (prepend c r).
Proof.
  intros H e. unfold prepend. destruct r as [[str rest] | e']; cbn.
  - discriminate.
  - intros [= <-]. apply H. reflexivity.
Qed.

Lemma prepend_consumes (c : N) (s s' : pystr) (r : result (pystr * pystr)) :
  consumes s' r -> (List.length s' <= List.length s)%nat ->
  consumes s (prepend c r).
Proof.
  intros H Hl a rest. unfold prepend. destruct r as [[str rest'] | e']; cbn.
  - intros [= <- <-]. specialize (H str rest' eq_refl). lia.
  - discriminate.
Qed.

Lemma scanstring_bounded (n : nat) :
  forall s, (List.length s <= n)%nat ->
            syntax_error_only (scanstring s) /\ consumes s (scanstring s).
Proof.
  induction n as [| n IH]; intros s Hn.
  - destruct s; [| cbn in Hn; lia]. cbn. split.
    + apply raise_syntax_error.
    + apply raise_consumes.
  - destruct s as [| c rest]; cbn [scanstring].
    + split; [apply raise_syntax_error | apply raise_consumes].
    + cbn [List.length] in Hn.
      repeat match goal with
             | |- context [match ?x with _ => _ end] =>
                 match x with
                 | scanstring _ => fail 1
                 | _ => destruct x eqn:?
                 end
             end;
        subst; cbn [List.length] in *;
        (split;
         [ first [ apply raise_syntax_error | apply return_no_error
                 | apply prepend_syntax_error; apply IH; cbn [List.length]; lia ]
         | first [ apply raise_consumes
                 | intros a r [= <- <-]; cbn [List.length]; lia
                 | eapply prepend_consumes;
                   [apply IH; cbn [List.length]; lia | cbn [List.length]; lia] ] ]).
Qed.

Lemma skip_ws_length (s : pystr) :
  (List.length (skip_ws s) <= List.length s)%nat.
Proof.
  induction s as [| c s IH]; cbn [skip_ws List.length]; [lia |].
  destruct (is_ws c); cbn [List.length]; lia.
Qed.

Lemma strip_prefix_length (p : pystr) :
  forall s r, strip_prefix p s = Some r ->
              (List.length r + List.length p = List.length s)%nat.
Proof.
  induction p as [| a p IH]; intros s r; cbn [strip_prefix].
  - intros [= <-]. cbn. lia.
  - destruct s as [| b s]; [discriminate |].
    destruct (a =? b); [| discriminate].
    intros H. apply IH in H. cbn [List.length]. lia.
Qed.

Lemma span_digits_length (s : pystr) :
  (List.length (snd (span_digits s)) <= List.length s)%nat.
Proof.
  induction s as [| c s IH]; cbn [span_digits]; [cbn; lia |].
  destruct (is_digit c); [| cbn; lia].
  destruct (span_digits s) as [d r]. cbn [snd List.length] in *. lia.
Qed.

Lemma match_int_length (s i r : pystr) :
  match_int s = Some (i, r) -> (List.length r < List.length s)%nat.
Proof.
  unfold match_int.
  destruct s as [| c s']; [discriminate |].
  destruct (c =? 45).
  - destruct s' as [| d s'']; [discriminate |].
    destruct (d =? 48); [intros [= _ <-]; cbn; lia |].
    destruct (is_digit d); [| discriminate].
    pose proof (span_digits_length s'') as H.
    destruct (span_digits s'') as [ds r']. intros [= _ <-].
    cbn [snd List.length] in *. lia.
  - destruct (c =? 48); [intros [= _ <-]; cbn; lia |].
    destruct (is_digit c); [| discriminate].
    pose proof (span_digits_length s') as H.
    destruct (span_digits s') as [ds r']. intros [= _ <-].
    cbn [snd List.length] in *. lia.
Qed.

Lemma match_frac_length (s : pystr) :
  (List.length (snd (match_frac s)) <= List.length s)%nat.
Proof.
  unfold match_frac. destruct s as [| c r]; [cbn; lia |].
  destruct (c =? 46); [| cbn; lia].
  pose proof (span_digits_length r) as H.
  destruct (span_digits r) as [[| d ds] r']; cbn [snd List.length] in *; lia.
Qed.

Lemma match_exp_length (s : pystr) :
  (List.length (snd (match_exp s)) <= List.length s)%nat.
Proof.
  unfold match_exp. destruct s as [| c r]; [cbn; lia |].
  destruct ((c =? 101) || (c =? 69)); [| cbn; lia].
  destruct r as [| x r'].
  - cbn. lia.
  - destruct ((x =? 43) || (x =? 45)).
    + pose proof (span_digits_length r') as H.
      destruct (span_digits r') as [[| d ds] r2];
        cbn [snd List.length] in *; lia.
    + pose proof (span_digits_length (x :: r')) as H.
      destruct (span_digits (x :: r')) as [[| d ds] r2];
        cbn [snd List.length] in *; lia.
Qed.

Lemma scan_scalar_bounded (s : pystr) :
  syntax_error_only (scan_scalar s) /\ consumes s (scan_scalar s).
Proof.
  unfold scan_scalar.
  repeat match goal with
         | |- context [match strip_prefix ?p s with _ => _ end] =>
             let H := fresh "H" in
             destruct (strip_prefix p s) eqn:H;
             [apply strip_prefix_length in H; cbn [str_of List.length] in H;
              split; [apply return_no_error
                     | intros a r [= <- <-]; lia] |]
         end.
  - destruct (match_int s) as [[i r] |] eqn:Hi.
    + apply match_int_length in Hi.
      pose proof (match_frac_length r) as Hf.
      destruct (match_frac r) as [frac r1]. cbn [snd] in Hf.
      pose proof (match_exp_length r1) as He.
      destruct (match_exp r1) as [exp r2]. cbn [snd] in He.
      destruct (frac ++ exp); (split; [apply return_no_error |]);
        intros a r' [= <- <-]; lia.
    + repeat match goal with
             | |- context [match strip_prefix ?p s with _ => _ end] =>
                 let H := fresh "H" in
                 destruct (strip_prefix p s) eqn:H;
                 [apply strip_prefix_length in H;
                  cbn [str_of List.length] in H;
                  split; [apply return_no_error
                         | intros a r [= <- <-]; lia] |]
             end.
      split; [apply raise_syntax_error | apply raise_consumes].
Qed.

Lemma rbind_syntax_error {A B} (r : result A) (k : A -> result B) :
  syntax_error_only r ->
  (forall a, r = Return a -> syntax_error_only (k a)) ->
  syntax_error_only (rbind r k).
Proof.
  intros Hr Hk e. destruct r as [a | e']; cbn [rbind].
  - apply (Hk a eq_refl).
  - intros [= <-]. apply Hr. reflexivity.
Qed.

Lemma rbind_consumes {A B} (s : pystr) (r : result (A * pystr))
    (k : A * pystr -> result (B * pystr)) :
  (forall a rest, r = Return (a, rest) -> consumes s (k (a, rest))) ->
  consumes s (rbind r k).
Proof.
  intros Hk b rest'. destruct r as [[a rest] | e']; cbn [rbind].
  - apply (Hk a rest eq_refl).
  - discriminate.
Qed.

Lemma skip_ws_cons_length (s : pystr) (c : N) (r : pystr) :
  skip_ws s = c :: r -> (S (List.length r) <= List.length s)%nat.
Proof.
  intros H. pose proof (skip_ws_length s) as L. rewrite H in L. exact L.
Qed.

Ltac leaf :=
  first [ apply raise_syntax_error
        | apply return_no_error
        | apply raise_consumes
        | intros ? ? [= <- <-]; cbn [List.length] in *; lia ].

(** With the fuel [loads] gives, running out of fuel does not happen: the
    scanner raises nothing but syntax errors, and every value it returns
    has used up some input. *)
Lemma scanner_bounded (fuel : nat) :
  (forall s,
      ((2 * List.length s + 1 <= fuel)%nat -> syntax_error_only (scan_once fuel s))
      /\ consumes s (scan_once fuel s)) /\
  (forall s,
      ((2 * List.length s + 2 <= fuel)%nat -> syntax_error_only (array_items fuel s))
      /\ consumes s (array_items fuel s)) /\
  (forall s,
      ((2 * List.length s + 2 <= fuel)%nat -> syntax_error_only (object_pairs fuel s))
      /\ consumes s (object_pairs fuel s)).
Proof.
  induction fuel as [| fuel (IHs & IHa & IHo)].
  - repeat split; intros; try lia; cbn; apply raise_consumes.
  - split; [| split]; intros s.
    + (* scan_once *)
      cbn [scan_once]. destruct s as [| c rest]; [split; intros; leaf |].
      cbn [List.length].
      destruct (c =? 34).
      { pose proof (@scanstring_bounded _ rest (le_n _)) as [E C].
        split.
        - intros _. apply rbind_syntax_error; [exact E |].
          intros [str r] _. leaf.
        - apply rbind_consumes. intros str r H. apply C in H. leaf. }
      destruct (c =? 123).
      { destruct (skip_ws rest) as [| c1 r1] eqn:Hw; [split; intros; leaf |].
        apply skip_ws_cons_length in Hw.
        destruct (c1 =? 125); [split; intros; leaf |].
        destruct (c1 =? 34); [| split; intros; leaf].
        destruct (IHo r1) as [E C]. split.
        - intros Hf. apply rbind_syntax_error; [apply E; lia |].
          intros [ps r] _. leaf.
        - apply rbind_consumes. intros ps r H. apply C in H. leaf. }
      destruct (c =? 91).
      { destruct (skip_ws rest) as [| c1 r1] eqn:Hw; [split; intros; leaf |].
        apply skip_ws_cons_length in Hw.
        destruct (c1 =? 93); [split; intros; leaf |].
        destruct (IHa (c1 :: r1)) as [E C]. cbn [List.length] in *. split.
        - intros Hf. apply rbind_syntax_error; [apply E; lia |].
          intros [vs r] _. leaf.
        - apply rbind_consumes. intros vs r H. apply C in H.
          cbn [List.length] in H. leaf. }
      destruct (scan_scalar_bounded (c :: rest)) as [E C].
      split; [intros _; exact E | exact C].
    + (* array_items *)
      cbn [array_items]. destruct (IHs s) as [E C]. split.
      * intros Hf. apply rbind_syntax_error; [apply E; lia |].
        intros [v r] Hv. apply C in Hv.
        destruct (skip_ws r) as [| c r1] eqn:Hw; [leaf |].
        apply skip_ws_cons_length in Hw.
        destruct (c =? 93); [leaf |].
        destruct (c =? 44); [| leaf].
        pose proof (skip_ws_length r1) as Hw1.
        apply rbind_syntax_error; [apply (IHa (skip_ws r1)); lia |].
        intros [vs r2] _. leaf.
      * apply rbind_consumes. intros v r Hv. apply C in Hv.
        destruct (skip_ws r) as [| c r1] eqn:Hw; [leaf |].
        apply skip_ws_cons_length in Hw.
        destruct (c =? 93); [leaf |].
        destruct (c =? 44); [| leaf].
        pose proof (skip_ws_length r1) as Hw1.
        apply rbind_consumes. intros vs r2 H.
        apply (proj2 (IHa (skip_ws r1))) in H. leaf.
    + (* object_pairs *)
      cbn [object_pairs].
      pose proof (@scanstring_bounded _ s (le_n _)) as [E C].
      split.
      * intros Hf. apply rbind_syntax_error; [exact E |].
        intros [key r] Hk. apply C in Hk.
        destruct (skip_ws r) as [| c r1] eqn:Hw; [leaf |].
        apply skip_ws_cons_length in Hw.
        destruct (c =? 58); [| leaf].
        pose proof (skip_ws_length r1) as Hw1.
        apply rbind_syntax_error; [apply (IHs (skip_ws r1)); lia |].
        intros [v r2] Hv. apply (proj2 (IHs (skip_ws r1))) in Hv.
        destruct (skip_ws r2) as [| c2 r3] eqn:Hw2; [leaf |].
        apply skip_ws_cons_length in Hw2.
        destruct (c2 =? 125); [leaf |].
        destruct (c2 =? 44); [| leaf].
        destruct (skip_ws r3) as [| q r4] eqn:Hw3; [leaf |].
        apply skip_ws_cons_length in Hw3.
        destruct (q =? 34); [| leaf].
        apply rbind_syntax_error; [apply (IHo r4); lia |].
        intros [ps r5] _. leaf.
      * apply rbind_consumes. intros key r Hk. apply C in Hk.
        destruct (skip_ws r) as [| c r1] eqn:Hw; [leaf |].
        apply skip_ws_cons_length in Hw.
        destruct (c =? 58); [| leaf].
        pose proof (skip_ws_length r1) as Hw1.
        apply rbind_consumes. intros v r2 Hv.
        apply (proj2 (IHs (skip_ws r1))) in Hv.
        destruct (skip_ws r2) as [| c2 r3] eqn:Hw2; [leaf |].
        apply skip_ws_cons_length in Hw2.
        destruct (c2 =? 125); [leaf |].
        destruct (c2 =? 44); [| leaf].
        destruct (skip_ws r3) as [| q r4] eqn:Hw3; [leaf |].
        apply skip_ws_cons_length in Hw3.
        destruct (q =? 34); [| leaf].
        apply rbind_consumes. intros ps r5 H.
        apply (proj2 (IHo r4)) in H. leaf.
Qed.

(** [json.loads] of any text returns a value or raises [JSONDecodeError]. *)
Theorem loads_syntax_error_only (s : pystr) : syntax_error_only (loads s).
Proof.
  unfold loads. pose proof (skip_ws_length s) as Hw.
  apply rbind_syntax_error.
  - apply (proj1 (scanner_bounded (2 * List.length s + 2))). lia.
  - intros [v r] _. destruct (skip_ws r); leaf.
Qed.

(** *** Python's [==] holds between an exact value and itself *)



(** *** The whole exchange *)


Lemma mapM_returns {A B : Type} (f : A -> result B) (xs : list A) :
  Forall (fun x => exists y, f x = Return y) xs ->
  exists ys, mapM f xs = Return ys.
Proof.
  induction 1 as [| x xs [y Hy] _ [ys Hys]]; cbn [mapM].
  - eauto.
  - rewrite Hy, Hys. cbn. eauto.
Qed.

(** [json.dumps] accepts every exact value. *)
Lemma dumps_returns (v : pyval) :
  json_exact v = true -> exists text, dumps v = Return text.
Proof.
  induction v as [| b | z | lit | s | xs IH | xs IH | kvs IH | cls]
    using pyval_induction;
    cbn [json_exact]; try discriminate; intros Hex.
  - eexists; reflexivity.
  - destruct b; eexists; reflexivity.
  - eexists; reflexivity.
  - eexists; reflexivity.
  - cbn [dumps].
    destruct (@mapM_returns _ _ dumps xs) as [ts Hts].
    { rewrite Forall_forall in *. rewrite forallb_forall in Hex. auto. }
    rewrite Hts. cbn. eauto.
  - change (dumps (PyDict kvs))
      with (let? ts := mapM dumps_pair kvs in
            Return (123 :: join item_separator ts ++ [125])).
    apply andb_prop in Hex as [Hex _].
    destruct (@mapM_returns _ _ dumps_pair kvs) as [ts Hts].
    { rewrite Forall_forall in *. rewrite forallb_forall in Hex.
      intros [k x] Hin. specialize (Hex _ Hin). cbn beta iota in Hex.
      apply andb_prop in Hex as [_ Hex].
      destruct (IH _ Hin Hex) as [t Ht]. cbn [snd] in Ht.
      unfold dumps_pair. rewrite Ht. cbn. eauto. }
    rewrite Hts. cbn. eauto.
Qed.

(** Encoding an exact value succeeds exactly when its JSON text is shorter
    than 2^32 bytes; a longer text makes [to_bytes] raise. *)
Lemma encode_message_limit (R : pyval) (text : pystr) :
  json_exact R = true ->
  dumps R = Return text ->
  if (Z.of_nat (List.length text) <? 4294967296)%Z
  then exists message, Client.encode_message R = Return message
  else Client.encode_message R = Raise OverflowError.
Proof.
  intros Hex Ht. unfold Client.encode_message. rewrite Ht. cbn [rbind].
  rewrite (encode_ascii text (dumps_ascii R Hex Ht)). cbn [rbind].
  unfold Bytes.int_to_bytes4, Bytes.len. rewrite length_map.
  destruct (Z.leb_spec 0 (Z.of_nat (List.length text))); [| lia].
  destruct (Z.of_nat (List.length text) <? 4294967296)%Z; cbn; eauto.
Qed.



End JsonRoundTrip.

(** ** Three runs of single tests *)

Section Scenarios.

Import Socket Client Tester Expect.
Local Open Scope Z_scope.

(** A status request answered with success passes. *)
Example status_test_passes :
  fst (run_test test_status (fresh (fun _ => answering (success (PyDict [])))))
  = Return true.
Proof. vm_compute. reflexivity. Qed.

(** An unknown command answered with an error passes when an error is
    expected. *)
Example invalid_command_test_passes :
  fst (run_test test_invalid
         (fresh (fun _ =>
                   answering
                     (PyDict [(str_of "status", PyStr (str_of "error"));
                              (str_of "message",
                               PyStr (str_of "unknown command"))]))))
  = Return true.
Proof. vm_compute. reflexivity. Qed.

(** Three commits satisfy the validator of the counted log; six do not,
    and the test fails although the status is the expected one. *)
Example commit_count_is_checked :
  let commits n := PyDict [(str_of "commits", PyList (repeat (PyInt 1) n))] in
  at_most_five_commits (success (commits 3%nat)) = Return true /\
  at_most_five_commits (success (commits 6%nat)) = Return false /\
  fst (run_test test_log_count
         (fresh (fun _ => answering (success (commits 3%nat))))) = Return true /\
  fst (run_test test_log_count
         (fresh (fun _ => answering (success (commits 6%nat))))) = Return false.
Proof. repeat split; vm_compute; reflexivity. Qed.

(** The socket is closed on each way out of [send_command]: a response, a
    refused connection, a failed write, a reset while reading, a stream
    that ends early, bytes that are not UTF-8, text that is not JSON. *)
Example every_way_out_closes :
  let peers :=
    [answering (success (PyDict []));
     refusing;
     {| refuses := None; send_fault := Some BrokenPipeError; arrivals := [] |};
     serving [Data [x00; x00; x00; x02; x7b]; Fault ConnectionResetError];
     serving [Data [x00; x00; x00; x09; x7b]];
     serving [Data [x00; x00; x00; x01; xff]];
     serving [Data [x00; x00; x00; x01; x7d]]] in
  Forall (fun p => closed (snd (send_command p (str_of "status") None)) = true)
         peers /\
  map (fun p => fst (send_command p (str_of "status") None)) peers
  = [Return (success (PyDict []));
     Raise ConnectionRefusedError; Raise BrokenPipeError;
     Raise ConnectionResetError; Raise JSONDecodeError;
     Raise UnicodeDecodeError; Raise JSONDecodeError].
Proof.
  split; [repeat constructor | vm_compute; reflexivity].
Qed.

End Scenarios.

(** ** The theorems at concrete inputs *)

Section Witnesses.

Import Socket Client Tester Expect.
Local Open Scope Z_scope.




(** C1 at two bytes followed by end of file. *)
Lemma short_prefix_fails_at_json_witness :
  let s := arriving [Data [x00; x01]] in
  closed s = false /\ inbox s = [Data [x00; x01]] /\
  fst (recv_length s) = Return 1 /\
  fst (receive_response s) = Raise JSONDecodeError.
Proof.
  cbv zeta.
  split; [reflexivity |]. split; [reflexivity |].
  destruct (@short_prefix_fails_at_json
              [x00; x01] (arriving [Data [x00; x01]])
              eq_refl eq_refl ltac:(cbn; lia)) as (H1 & _ & H3).
  split; [exact H1 | exact H3].
Defined.


End Witnesses.

(** ** The exchange on the socket *)

Section Exchange.

Import Socket Client.
Local Open Scope Z_scope.

Lemma only_receives_ret {A} (a : A) : only_receives (ret a).
Proof.
  intros s. split; [reflexivity |]. exists []. rewrite app_nil_r. auto.
Qed.

Lemma only_receives_lift {A} (r : result A) : only_receives (lift r).
Proof.
  intros s. split; [reflexivity |]. exists []. rewrite app_nil_r. auto.
Qed.

Lemma only_receives_bind {A B} (m : M A) (k : A -> M B) :
  only_receives m -> (forall a, only_receives (k a)) ->
  only_receives (bind m k).
Proof.
  intros Hm Hk s. unfold bind. destruct (Hm s) as (Hs & r1 & Hc & Hb).
  destruct (m s) as [[a | e] s1]; cbn [snd] in *.
  - destruct (Hk a s1) as (Hs2 & r2 & Hc2 & Hb2). split; [congruence |].
    exists (r1 ++ r2). rewrite Hc2, Hc, app_assoc. split; [reflexivity |].
    apply Forall_app. auto.
  - split; [exact Hs |]. exists r1. auto.
Qed.

Lemma only_receives_recv (bufsize : Z) :
  1 <= bufsize <= 4096 -> only_receives (recv bufsize).
Proof.
  intros Hb s. unfold recv, logged; cbn [closed inbox].
  assert (Hc : Forall bounded_recv [Recv bufsize]).
  { constructor; [| constructor]. exists bufsize. auto. }
  destruct (closed s); [cbn; eauto |].
  destruct (take _ _); cbn; eauto.
Qed.

Lemma only_receives_recv_loop (response_len : Z) (fuel : nat) :
  forall response_data,
    only_receives (recv_loop fuel response_len response_data).
Proof.
  induction fuel as [| fuel IH]; intros data s; cbn [recv_loop].
  - destruct (_ <? _); apply (only_receives_ret data).
  - destruct (Z.ltb_spec (Bytes.len data) response_len) as [Hlt | Hge];
      [| apply (only_receives_ret data)].
    destruct (@only_receives_recv
                (Z.min 4096 (response_len - Bytes.len data)) ltac:(lia) s)
      as (Hs & r1 & Hc & Hb).
    destruct (recv _ s) as [[chunk | e] s1]; cbn [snd] in *.
    + destruct chunk as [| b chunk'].
      * cbn [snd]. eauto.
      * destruct (IH (data ++ b :: chunk') s1) as (Hs2 & r2 & Hc2 & Hb2).
        split; [congruence |].
        exists (r1 ++ r2). rewrite Hc2, Hc, app_assoc.
        split; [reflexivity |]. apply Forall_app. auto.
    + cbn [snd]. eauto.
Qed.

Lemma only_receives_receive_response : only_receives receive_response.
Proof.
  unfold receive_response, recv_length.
  repeat (apply only_receives_bind; intros);
    auto using only_receives_lift, only_receives_ret.
  - apply only_receives_recv. lia.
  - intros s. apply only_receives_recv_loop.
Qed.

(** What the [try] block does with the socket, by how far it gets. *)
Lemma exchange_trace (request : pyval) (p : peer) :
  let s := snd (exchange request (create p)) in
  match refuses p, encode_message request, send_fault p with
  | None, Return message, None =>
      sent s = message /\
      exists recvs,
        calls s = Connect :: Sendall message :: recvs /\
        Forall bounded_recv recvs
  | None, Return message, Some _ =>
      sent s = [] /\ calls s = [Connect; Sendall message]
  | _, _, _ => sent s = [] /\ calls s = [Connect]
  end.
Proof.
  cbv zeta. unfold exchange, bind, connect, sendall, lift, create, logged.
  cbn [closed remote calls sent inbox List.app].
  destruct (refuses p) as [e |]; [cbn; auto |].
  destruct (encode_message request) as [message | e1]; [| cbn; auto].
  cbn [closed remote calls sent inbox List.app].
  destruct (send_fault p) as [e2 |]; [cbn; auto |].
  match goal with
  | |- context [receive_response ?s0] =>
      destruct (only_receives_receive_response s0) as (Hs & recvs & Hc & Hb)
  end.
  cbn [sent calls List.app] in Hs, Hc. split; [exact Hs |].
  exists recvs. split; [exact Hc | exact Hb].
Qed.

(** X1.  The message [send_command] builds is the UTF-8 bytes of the JSON
    text behind 4 bytes that are their number, big-endian; the number is
    below 2^32. *)
Theorem message_is_length_prefixed (R : pyval) (message : list byte) :
  encode_message R = Return message ->
  exists text payload,
    Json.dumps R = Return text /\
    Bytes.encode text = Return payload /\
    skipn 4 message = payload /\
    List.length (firstn 4 message) = 4%nat /\
    Bytes.int_from_bytes (firstn 4 message) = Bytes.len payload /\
    Bytes.len payload < 4294967296.
Proof.
  unfold encode_message.
  destruct (Json.dumps R) as [text | e] eqn:Ht; [| discriminate].
  cbn [rbind].
  destruct (Bytes.encode text) as [payload | e] eqn:He; [| discriminate].
  cbn [rbind].
  destruct (Bytes.int_to_bytes4 _) as [prefix | e] eqn:Hp; [| discriminate].
  cbn [rbind]. intros [= <-].
  apply int_to_from_bytes in Hp as (Hl & Hv & Hr).
  exists text, payload.
  rewrite firstn_app, skipn_app, Hl.
  change (firstn (4 - 4) payload) with (@nil byte).
  change (skipn (4 - 4) payload) with payload.
  rewrite (firstn_all2 (n := 4) prefix) by lia.
  rewrite (skipn_all2 (n := 4) prefix) by lia.
  rewrite app_nil_r. cbn [List.app].
  repeat split; auto; lia.
Qed.

(** X2.  [send_command] writes the encoded request to the socket, once
    and whole, when the peer accepts the connection and the write; in every
    other case it writes nothing. *)
Theorem request_is_sent_once (p : peer) (command : pystr)
    (params : option pydict) :
  let request :=
    make_request command (match params with None => [] | Some d => d end) in
  sent (snd (send_command p command params)) =
    match refuses p, encode_message request, send_fault p with
    | None, Return message, None => message
    | _, _, _ => []
    end.
Proof.
  cbv zeta. unfold send_command, try_finally.
  set (request := make_request command _).
  pose proof (exchange_trace request p) as H. cbv zeta in H.
  destruct (exchange request (create p)) as [r s1]. cbn [snd] in H.
  cbn [close logged snd sent].
  destruct (refuses p); [apply H |].
  destruct (encode_message request); [| apply H].
  destruct (send_fault p); apply H.
Qed.


(** X4.  Bytes that arrive after the declared payload are not taken
    into the response: the payload alone is parsed. *)
Theorem bytes_after_payload_are_ignored (prefix payload extra : list byte)
    (rest : list (list byte)) (s : socket) :
  closed s = false ->
  inbox s = Data (prefix ++ payload ++ extra) :: map Data rest ->
  List.length prefix = 4%nat ->
  Bytes.int_from_bytes prefix = Bytes.len payload ->
  fst (receive_response s) = parse_response payload.
Proof.
  intros Ho Hi Hl Hv.
  rewrite (@receive_response_chunked (prefix ++ payload ++ extra) rest s Ho Hi)
    by (rewrite length_app; lia).
  unfold decode_message. rewrite <- !app_assoc.
  rewrite firstn_app, skipn_app, Hl.
  change (firstn (4 - 4) ?l) with (@nil byte).
  change (skipn (4 - 4) ?l) with l.
  rewrite (firstn_all2 (n := 4) prefix) by lia.
  rewrite (skipn_all2 (n := 4) prefix) by lia.
  rewrite app_nil_r, Hv. cbn [List.app].
  unfold Bytes.len. rewrite Nat2Z.id.
  rewrite firstn_app, Nat.sub_diag, firstn_all. cbn [firstn].
  rewrite app_nil_r. reflexivity.
Qed.

(** X5.  When the stream ends before the declared number of payload
    bytes has arrived, no error is raised for the missing bytes: what did
    arrive is parsed as the response. *)
Theorem short_payload_is_parsed_as_it_is (prefix part : list byte)
    (s : socket) :
  closed s = false ->
  inbox s = [Data (prefix ++ part)] ->
  List.length prefix = 4%nat ->
  Bytes.len part < Bytes.int_from_bytes prefix ->
  fst (receive_response s) = parse_response part.
Proof.
  intros Ho Hi Hl Hv.
  rewrite (@receive_response_chunked (prefix ++ part) [] s Ho Hi)
    by (rewrite length_app; lia).
  unfold decode_message. cbn [stream_bytes]. rewrite app_nil_r.
  rewrite firstn_app, skipn_app, Hl.
  change (firstn (4 - 4) ?l) with (@nil byte).
  change (skipn (4 - 4) ?l) with l.
  rewrite (firstn_all2 (n := 4) prefix) by lia.
  rewrite (skipn_all2 (n := 4) prefix) by lia.
  rewrite app_nil_r. cbn [List.app].
  rewrite firstn_all2 by (unfold Bytes.len in Hv; lia).
  reflexivity.
Qed.

(** X6.  Once the first [recv] has returned the whole length prefix, it
    does not matter in what pieces the stream delivers its bytes: two
    streams with the same bytes give the same result. *)
Theorem partial_reads_after_prefix_agree (first1 first2 : list byte)
    (rest1 rest2 : list (list byte)) (s1 s2 : socket) :
  closed s1 = false -> closed s2 = false ->
  inbox s1 = Data first1 :: map Data rest1 ->
  inbox s2 = Data first2 :: map Data rest2 ->
  (4 <= List.length first1)%nat -> (4 <= List.length first2)%nat ->
  first1 ++ stream_bytes rest1 = first2 ++ stream_bytes rest2 ->
  fst (receive_response s1) = fst (receive_response s2).
Proof.
  intros Ho1 Ho2 Hi1 Hi2 Hl1 Hl2 E.
  rewrite (@receive_response_chunked first1 rest1 s1 Ho1 Hi1 Hl1).
  rewrite (@receive_response_chunked first2 rest2 s2 Ho2 Hi2 Hl2).
  rewrite E. reflexivity.
Qed.

Lemma int_from_bytes_acc (bs : list byte) :
  forall acc, 0 <= acc ->
    0 <= fold_left (fun a b => a * 256 + Z.of_N (Byte.to_N b)) bs acc
      < (acc + 1) * 256 ^ Z.of_nat (List.length bs).
Proof.
  induction bs as [| b bs IH]; intros acc Ha; cbn [fold_left List.length].
  - cbn. lia.
  - pose proof (Byte.to_N_bounded b) as Hb.
    specialize (IH (acc * 256 + Z.of_N (Byte.to_N b)) ltac:(lia)).
    rewrite Nat2Z.inj_succ, Z.pow_succ_r by lia.
    assert (0 < 256 ^ Z.of_nat (List.length bs)) by (apply Z.pow_pos_nonneg; lia).
    nia.
Qed.

(** X7.  The length [send_command] reads from the prefix is never
    negative and always below 2^32. *)
Theorem declared_length_in_range (s : socket) (n : Z) :
  fst (recv_length s) = Return n -> 0 <= n < 4294967296.
Proof.
  unfold recv_length, bind, ret, recv, logged; cbn [closed inbox].
  destruct (closed s); [discriminate |].
  pose proof (take_pending (Z.to_nat 4) (inbox s)) as Ht.
  destruct (take (Z.to_nat 4) (inbox s)) as [[bs | e] evs]; [| discriminate].
  cbn [fst]. intros [= <-]. destruct Ht as [_ Hl].
  change (Z.to_nat 4) with 4%nat in Hl.
  pose proof (@int_from_bytes_acc bs 0 ltac:(lia)) as Hb.
  unfold Bytes.int_from_bytes.
  assert (256 ^ Z.of_nat (List.length bs) <= 256 ^ 4)
    by (apply Z.pow_le_mono_r; lia).
  change (256 ^ 4) with 4294967296 in *. lia.
Qed.

Lemma pending_data (chunks : list (list byte)) :
  pending (map Data chunks) = List.length (stream_bytes chunks).
Proof.
  induction chunks as [| c chunks IH]; cbn; [reflexivity |].
  rewrite length_app, IH. reflexivity.
Qed.

(** On a stream that only delivers data, receiving never fails: the
    response is what parsing makes of a slice of the stream, cut where the
    first read and the number it yields put it. *)
Lemma receive_response_data_only (chunks : list (list byte)) (s : socket) :
  closed s = false ->
  inbox s = map Data chunks ->
  exists k,
    (k <= 4)%nat /\ (k <= List.length (stream_bytes chunks))%nat /\
    (stream_bytes chunks <> [] -> (0 < k)%nat) /\
    fst (receive_response s) =
      parse_response
        (firstn (Z.to_nat (Bytes.int_from_bytes
                             (firstn k (stream_bytes chunks))))
                (skipn k (stream_bytes chunks))).
Proof.
  intros Ho Hi.
  unfold receive_response, recv_length, bind, ret, lift.
  unfold recv at 1, logged; cbn [closed inbox]. rewrite Ho, Hi.
  destruct (take_data (Z.to_nat 4) chunks)
    as (k & chunks' & Ht & Hs & Hk4 & Hkl & Hpos).
  rewrite Ht. exists k.
  change (Z.to_nat 4) with 4%nat in *.
  split; [exact Hk4 |]. split; [exact Hkl |].
  split; [intros Hne; apply Hpos; [lia | exact Hne] |].
  set (s1 := {| remote := _ |}).
  set (len := Bytes.int_from_bytes _).
  pose proof (@recv_loop_data len (S (pending (inbox s1))) chunks' [] s1
                eq_refl eq_refl) as H.
  unfold recv_data. destruct (recv_loop _ _ [] s1) as [r s2].
  cbn [fst] in H. rewrite H.
  - cbn [List.app]. rewrite Hs. change (Bytes.len []) with 0.
    rewrite Z.sub_0_r. reflexivity.
  - cbn [s1 inbox]. rewrite pending_data. lia.
Qed.

(** X8.  When the request can be encoded and the peer accepts the
    connection, takes the request and only delivers data, [send_command]
    raises no error of the socket and checks nothing about the framing: the
    first read takes between one and four bytes of what arrives (none when
    nothing arrives), the number they spell cuts the payload out of the
    rest, and the result of the call, response or error, is the result of
    parsing that payload. *)
Theorem clean_exchange_is_a_parse (chunks : list (list byte))
    (command : pystr) (params : option pydict) :
  is_return
    (encode_message
       (make_request command (match params with None => [] | Some d => d end)))
  = true ->
  let arrived := stream_bytes chunks in
  exists k,
    (k <= 4)%nat /\ (k <= List.length arrived)%nat /\
    (arrived <> [] -> (0 < k)%nat) /\
    fst (send_command (serving (map Data chunks)) command params) =
      parse_response
        (firstn (Z.to_nat (Bytes.int_from_bytes (firstn k arrived)))
                (skipn k arrived)).
Proof.
  unfold send_command, try_finally.
  set (request := make_request command _). intros Henc. cbv zeta.
  destruct (encode_message request) as [message |] eqn:Hm; [| discriminate].
  unfold exchange, bind, connect, sendall, lift, create, logged, serving.
  cbn [closed remote calls sent inbox List.app refuses send_fault arrivals].
  rewrite Hm.
  cbn [closed remote calls sent inbox List.app refuses send_fault arrivals].
  match goal with
  | |- context [receive_response ?s0] =>
      destruct (@receive_response_data_only chunks s0 eq_refl eq_refl)
        as (k & H4 & Hl & Hpos & Hd);
      destruct (receive_response s0) as [r s1]
  end.
  cbn [fst] in Hd. subst r. exists k.
  repeat (split; [assumption |]).
  destruct (parse_response _) as [v | e']; reflexivity.
Qed.

Lemma recv_length_bound (bufsize : Z) (s : socket) (chunk : list byte) :
  fst (recv bufsize s) = Return chunk ->
  (List.length chunk <= Z.to_nat bufsize)%nat.
Proof.
  unfold recv, logged; cbn [closed inbox].
  destruct (closed s); [discriminate |].
  pose proof (take_pending (Z.to_nat bufsize) (inbox s)) as Ht.
  destruct (take _ (inbox s)) as [[bs | e] evs]; [| discriminate].
  cbn [fst]. intros [= <-]. apply Ht.
Qed.

Lemma recv_loop_bound (response_len : Z) (fuel : nat) :
  forall (data0 : list byte) (s : socket) (data : list byte),
    Bytes.len data0 <= Z.max 0 response_len ->
    fst (recv_loop fuel response_len data0 s) = Return data ->
    Bytes.len data <= Z.max 0 response_len.
Proof.
  induction fuel as [| fuel IH]; intros data0 s data H0; cbn [recv_loop].
  - destruct (_ <? _); cbn [fst]; intros [= <-]; exact H0.
  - destruct (Z.ltb_spec (Bytes.len data0) response_len) as [Hlt | Hge];
      [| cbn [fst]; intros [= <-]; exact H0].
    pose proof (@recv_length_bound
                  (Z.min 4096 (response_len - Bytes.len data0)) s) as Hr.
    destruct (recv _ s) as [[chunk | e] s1]; cbn [fst] in *; [| discriminate].
    specialize (Hr chunk eq_refl).
    destruct chunk as [| b chunk']; [cbn [fst]; intros [= <-]; exact H0 |].
    apply IH. unfold Bytes.len in *. rewrite length_app. lia.
Qed.

(** X20.  The payload loop never collects more bytes than the declared
    length, whatever the stream delivers. *)
Theorem payload_never_exceeds_declared_length (response_len : Z) (s : socket)
    (data : list byte) :
  fst (recv_data response_len s) = Return data ->
  Bytes.len data <= Z.max 0 response_len.
Proof.
  unfold recv_data. apply recv_loop_bound. cbn. lia.
Qed.

End Exchange.

(** ** The sockets and the validators of the suite *)

Section SuiteRuns.

Import Socket Client Tester Expect.
Local Open Scope Z_scope.

Lemma try_finally_close_closed {A} (body : M A) (s : socket) :
  closed (snd (try_finally body close s)) = true.
Proof.
  unfold try_finally. destruct (body s) as [r s1]. reflexivity.
Qed.

Lemma grown_refl (w : world) : grown w w.
Proof.
  split; [reflexivity |]. exists []. rewrite app_nil_r, Nat.add_0_r. auto.
Qed.

Lemma grown_trans (w1 w2 w3 : world) : grown w1 w2 -> grown w2 w3 -> grown w1 w3.
Proof.
  intros (Hn1 & new1 & Hs1 & Ho1 & Hc1) (Hn2 & new2 & Hs2 & Ho2 & Hc2).
  split; [congruence |]. exists (new1 ++ new2).
  rewrite Hs2, Hs1, Ho2, Ho1, app_assoc, length_app.
  repeat split; [lia | apply Forall_app; auto].
Qed.






End SuiteRuns.

(** ** The command line *)

Section CommandLine.

Import Socket Client Tester Cli.
Local Open Scope Z_scope.

Lemma grown_call (c : MCPGitClient) (command : pystr) (params : pyval)
    (w : world) :
  grown w (snd (call c command params w)) /\
  opened (snd (call c command params w)) = S (opened w).
Proof.
  unfold call. destruct (send_command_value _ _ _) as [r sk] eqn:E.
  cbn [snd]. split; [| reflexivity].
  split; [reflexivity |]. exists [sk]. cbn [opened List.length].
  repeat split; [lia |]. constructor; [| constructor].
  change sk with (snd (r, sk)). rewrite <- E.
  unfold send_command_value. apply try_finally_close_closed.
Qed.



(** X14.  In command mode, parameters that [json.loads] does not accept
    make [main] print one message and exit with status 1 before any
    connection is made. *)
Theorem command_mode_rejects_bad_parameters (fuel : nat) (h : pystr) (p : Z)
    (c0 : N) (command : pystr) (t0 : N) (text : pystr) (stdin : list key)
    (w : world) :
  is_raise (Json.loads (t0 :: text)) = true ->
  exists message,
    main fuel {| arg_host := h; arg_port := p; arg_mode := Command;
                 arg_command := Some (c0 :: command);
                 arg_params := Some (t0 :: text) |} stdin w
    = (Exited 1, [message], w).
Proof.
  intros H. unfold main. cbn [arg_mode arg_command arg_params].
  destruct (Json.loads (t0 :: text)) as [v | e] eqn:E; [discriminate |].
  destruct e; eexists; reflexivity.
Qed.


Lemma grown_interactive (fuel : nat) (c : MCPGitClient) :
  forall stdin out w,
    grown w (world_of (interactive_mode fuel c stdin out w)).
Proof.
  induction fuel as [| fuel IH]; intros stdin out w; cbn [interactive_mode].
  - apply grown_refl.
  - destruct stdin as [| [command |] stdin1]; [apply IH | | apply grown_refl].
    destruct (is_exit command); [apply grown_refl |].
    destruct stdin1 as [| [params_input |] stdin2];
      [apply IH | | apply grown_refl].
    destruct (if blank params_input then _ else _) as [params | e].
    + destruct (grown_call c command params w) as [G _].
      destruct (call c command params w) as [[response | e] w'];
        cbn [snd] in G; exact (grown_trans G (IH _ _ _)).
    + destruct e; apply IH.
Qed.

(** X18.  However an interactive session goes, every connection it made
    was on a socket that is closed again. *)
Theorem interactive_mode_closes_sockets (fuel : nat) (c : MCPGitClient)
    (stdin : list key) (w : world) :
  let w' := world_of (interactive_mode fuel c stdin [] w) in
  exists new,
    sockets w' = sockets w ++ new /\
    opened w' = (opened w + List.length new)%nat /\
    Forall (fun sk => closed sk = true) new.
Proof.
  cbv zeta. destruct (grown_interactive fuel c stdin [] w) as [_ H]. exact H.
Qed.



Lemma ascii_lower_letter (a t : N) :
  (97 <= t <= 122)%N ->
  ascii_lower a = t <-> a = t \/ (a + 32)%N = t.
Proof.
  intros Ht. unfold ascii_lower.
  destruct (N.leb_spec 65 a), (N.leb_spec a 90); cbn [andb]; lia.
Qed.

(** X19.  The command that ends an interactive session is the word exit
    in any mix of upper and lower case, and nothing else: the line is not
    trimmed, so a space before or after it makes it a command like any
    other. *)
Theorem exit_command_ignores_case (command : pystr) :
  is_exit command = true <->
  exists a b c d,
    command = [a; b; c; d] /\
    (a = 101 \/ a = 69)%N /\ (b = 120 \/ b = 88)%N /\
    (c = 105 \/ c = 73)%N /\ (d = 116 \/ d = 84)%N.
Proof.
  unfold is_exit. rewrite pystr_eqb_eq.
  change (str_of "exit") with [101; 120; 105; 116]%N.
  split.
  - destruct command as [| a [| b [| c [| d [| ? ?]]]]]; try discriminate.
    cbn [map]. intros [= Ha Hb Hc Hd].
    apply ascii_lower_letter in Ha, Hb, Hc, Hd; try lia.
    exists a, b, c, d. repeat split; try reflexivity; lia.
  - intros (a & b & c & d & -> & Ha & Hb & Hc & Hd). cbn [map].
    repeat f_equal; apply ascii_lower_letter; lia.
Qed.

End CommandLine.

(** ** The further theorems at concrete inputs *)

Section ExchangeWitnesses.

Import Socket Client Tester Cli.
Local Open Scope Z_scope.

(** X1 at the sample request. *)
Lemma message_is_length_prefixed_witness :
  encode_message sample_request = Return sample_message /\
  exists text payload,
    Json.dumps sample_request = Return text /\
    Bytes.encode text = Return payload /\
    skipn 4 sample_message = payload /\
    List.length (firstn 4 sample_message) = 4%nat /\
    Bytes.int_from_bytes (firstn 4 sample_message) = Bytes.len payload /\
    Bytes.len payload < 4294967296.
Proof.
  split; [vm_compute; reflexivity |].
  apply (@message_is_length_prefixed sample_request sample_message).
  vm_compute; reflexivity.
Defined.

(** X4 at an empty object followed by one more byte. *)
Lemma bytes_after_payload_are_ignored_witness :
  let prefix := [x00; x00; x00; x02] in
  let payload := [x7b; x7d] in
  let s := arriving [Data (prefix ++ payload ++ [x21])] in
  closed s = false /\
  fst (receive_response s) = parse_response payload /\
  parse_response payload = Return (PyDict []).
Proof.
  cbv zeta. split; [reflexivity |].
  split; [| vm_compute; reflexivity].
  apply (@bytes_after_payload_are_ignored
           [x00; x00; x00; x02] [x7b; x7d] [x21] []
           (arriving [Data ([x00; x00; x00; x02] ++ [x7b; x7d] ++ [x21])]));
    reflexivity.
Defined.

(** X5 at a prefix that declares five bytes before two digits and the end
    of the stream: the response is the number 12. *)
Lemma short_payload_is_parsed_as_it_is_witness :
  let prefix := [x00; x00; x00; x05] in
  let part := [x31; x32] in
  let s := arriving [Data (prefix ++ part)] in
  Bytes.len part < Bytes.int_from_bytes prefix /\
  fst (receive_response s) = parse_response part /\
  parse_response part = Return (PyInt 12).
Proof.
  cbv zeta. split; [vm_compute; reflexivity |].
  split; [| vm_compute; reflexivity].
  apply (@short_payload_is_parsed_as_it_is
           [x00; x00; x00; x05] [x31; x32]
           (arriving [Data ([x00; x00; x00; x05] ++ [x31; x32])]));
    vm_compute; reflexivity.
Defined.

(** X6 at an empty object that arrives in one piece and byte by byte. *)
Lemma partial_reads_after_prefix_agree_witness :
  let s1 := arriving [Data [x00; x00; x00; x02; x7b; x7d]] in
  let s2 := arriving [Data [x00; x00; x00; x02]; Data [x7b]; Data [x7d]] in
  fst (receive_response s1) = fst (receive_response s2).
Proof.
  cbv zeta.
  apply (@partial_reads_after_prefix_agree
           [x00; x00; x00; x02; x7b; x7d] [x00; x00; x00; x02]
           [] [[x7b]; [x7d]]
           (arriving [Data [x00; x00; x00; x02; x7b; x7d]])
           (arriving [Data [x00; x00; x00; x02]; Data [x7b]; Data [x7d]]));
    try reflexivity; cbn; lia.
Defined.

(** X7 at the largest prefix. *)
Lemma declared_length_in_range_witness :
  let s := arriving [Data [xff; xff; xff; xff]] in
  fst (recv_length s) = Return 4294967295 /\
  0 <= 4294967295 < 4294967296.
Proof.
  cbv zeta. split; [vm_compute; reflexivity |].
  apply (@declared_length_in_range
           (arriving [Data [xff; xff; xff; xff]]) 4294967295).
  vm_compute; reflexivity.
Defined.

(** X8 at a response of one byte that is not UTF-8. *)
Lemma clean_exchange_is_a_parse_witness :
  let chunks := [[x00; x00; x00; x01; xff]] in
  is_return (encode_message (make_request (str_of "status") [])) = true /\
  exists k,
    (k <= 4)%nat /\ (k <= List.length (stream_bytes chunks))%nat /\
    (stream_bytes chunks <> [] -> (0 < k)%nat) /\
    fst (send_command (serving (map Data chunks)) (str_of "status") None) =
      parse_response
        (firstn (Z.to_nat (Bytes.int_from_bytes
                             (firstn k (stream_bytes chunks))))
                (skipn k (stream_bytes chunks))).
Proof.
  cbv zeta. split; [vm_compute; reflexivity |].
  apply (@clean_exchange_is_a_parse
           [[x00; x00; x00; x01; xff]] (str_of "status") None).
  vm_compute; reflexivity.
Defined.

(** X20 at a stream of three bytes when two are declared. *)
Lemma payload_never_exceeds_declared_length_witness :
  let s := arriving [Data [x7b; x7d; x21]] in
  fst (recv_data 2 s) = Return [x7b; x7d] /\
  Bytes.len [x7b; x7d] <= Z.max 0 2.
Proof.
  cbv zeta. split; [vm_compute; reflexivity |].
  apply (@payload_never_exceeds_declared_length
           2 (arriving [Data [x7b; x7d; x21]]) [x7b; x7d]).
  vm_compute; reflexivity.
Defined.


(** X14 at parameters that are an opening brace. *)
Lemma command_mode_rejects_bad_parameters_witness :
  let w := fst (fresh (fun _ => answering (success (PyDict [])))) in
  is_raise (Json.loads [123%N]) = true /\
  exists message,
    main 0 {| arg_host := str_of "localhost"; arg_port := 9876;
              arg_mode := Command;
              arg_command := Some (115%N :: str_of "tatus");
              arg_params := Some [123%N] |} [] w
    = (Exited 1, [message], w).
Proof.
  cbv zeta. split; [vm_compute; reflexivity |].
  apply (@command_mode_rejects_bad_parameters
           0 (str_of "localhost") 9876 115%N (str_of "tatus") 123%N [] []
           (fst (fresh (fun _ => answering (success (PyDict [])))))).
  vm_compute; reflexivity.
Defined.




End ExchangeWitnesses.
